(** * DCF77 emulator (src/main.cpp): telegram encoding and pulse emitter

    A shallow embedding of the protocol core of [src/main.cpp]:
    [bin2Bcd], [calculateArray], [readAndDecodeTime], [setupDcf] and the
    100 ms tick handler [dcfOut], together with the properties of the
    telegram they build and transmit.

    Conventions.
    - A C++ [int] is a [Z]; arithmetic that can leave the 32-bit range is
      written with its two's-complement wrap-around ([int_wrap]).
    - [pulseArray] (an [int\[183\]]) is a [list Z] read with stdpp's
      [!!] and written with [<[ i := v ]>].
    - [struct tm] is the record [tm], with the field meanings of <time.h>. *)

From Stdlib Require Import ZArith Lia List Bool.
From stdpp Require Import base tactics option list.
Import ListNotations.

Local Open Scope Z_scope.

(** ** Machine integers *)

Module Int.

(** Two's-complement reduction of a mathematical integer to 32 bits. *)
Definition int_wrap (z : Z) : Z := (z + 2 ^ 31) mod 2 ^ 32 - 2 ^ 31.

Definition add (a b : Z) : Z := int_wrap (a + b).
Definition sub (a b : Z) : Z := int_wrap (a - b).
Definition mul (a b : Z) : Z := int_wrap (a * b).
Definition shl (a n : Z) : Z := int_wrap (Z.shiftl a n).

(** [unsigned long] on the target is 32 bits wide as well. *)
Definition ulong_wrap (z : Z) : Z := z mod 2 ^ 32.

Definition in_range (z : Z) : Prop := - 2 ^ 31 <= z < 2 ^ 31.

End Int.

(** ** Constants of the telegram buffer (the #defines of main.cpp) *)

Definition MaxPulseNumber : Z := 183.
Definition FirstMinutePulseBegin : Z := 2.
Definition SecondMinutePulseBegin : Z := 62.
Definition ThirdMinutePulseBegin : Z := 122.

(** Pulse codes stored in [pulseArray]: 0 = no pulse, 1 = 100 ms,
    2 = 200 ms. *)
Definition PulseNone : Z := 0.
Definition PulseShort : Z := 1.
Definition PulseLong : Z := 2.

(** ** [struct tm] *)

Record tm : Type := mkTm {
  tm_sec : Z;    (* seconds after the minute, 0..59 *)
  tm_min : Z;    (* minutes after the hour, 0..59 *)
  tm_hour : Z;   (* hours since midnight, 0..23 *)
  tm_mday : Z;   (* day of the month, 1..31 *)
  tm_mon : Z;    (* months since January, 0..11 *)
  tm_year : Z;   (* years since 1900 *)
  tm_wday : Z;   (* days since Sunday, 0..6 *)
  tm_yday : Z;   (* days since January 1, 0..365 *)
  tm_isdst : Z   (* daylight saving flag *)
}.

(** The calendar reading of a [struct tm], as <time.h> defines it. *)
Definition calendar_year (t : tm) : Z := tm_year t + 1900.
Definition calendar_month (t : tm) : Z := tm_mon t + 1.

(** ** Array access *)

(** [pulseArray[i]] read; [None] outside the array. *)
Definition slot (pa : list Z) (i : Z) : option Z :=
  if 0 <=? i then pa !! Z.to_nat i else None.

(** [pulseArray[i] = v].  An out-of-bounds write is undefined behaviour
    in C++; the model drops it.  Every caller in main.cpp writes inside
    the array (offsets 2, 62 and 122, plus the constants of [setupDcf]). *)
Definition store (pa : list Z) (i v : Z) : list Z :=
  if 0 <=? i then <[ Z.to_nat i := v ]> pa else pa.

(** ** bin2Bcd (main.cpp 377-387) *)

Definition bin2Bcd (dato : Z) : Z :=
  if dato <? 10 then dato
  else
    let msb := Int.shl (dato ÷ 10) 4 in
    let lsb := Z.rem dato 10 in
    Int.add msb lsb.

(** ** calculateArray (main.cpp 389-487) *)

(** [for (n = lo; n < lo + count; n++) pulseArray[n + ArrayOffset] = 1;] *)
Fixpoint fillShort (count : nat) (n ArrayOffset : Z) (pa : list Z) : list Z :=
  match count with
  | O => pa
  | S c => fillShort c (Int.add n 1) ArrayOffset
             (store pa (Int.add n ArrayOffset) 1)
  end.

(** The bit loop that main.cpp repeats for every field:
[[
    for (n = lo; n < hi; n++) {
      Tmp = TmpIn & 1;
      pulseArray[n + ArrayOffset] = Tmp + 1;
      ParityCount += Tmp;
      TmpIn >>= 1;
    }
]]
    [count] is [hi - lo]; the result is the array and [ParityCount]. *)
Fixpoint encodeBits (count : nat) (n ArrayOffset TmpIn ParityCount : Z)
    (pa : list Z) : list Z * Z :=
  match count with
  | O => (pa, ParityCount)
  | S c =>
      let Tmp := Z.land TmpIn 1 in
      encodeBits c (Int.add n 1) ArrayOffset (Z.shiftr TmpIn 1)
        (Int.add ParityCount Tmp)
        (store pa (Int.add n ArrayOffset) (Int.add Tmp 1))
  end.

(** [if ((ParityCount & 1) == 0) pulseArray[i] = 1; else pulseArray[i] = 2;] *)
Definition storeParity (pa : list Z) (i ParityCount : Z) : list Z :=
  if Z.land ParityCount 1 =? 0 then store pa i 1 else store pa i 2.

Definition calculateArray (ArrayOffset : Z) (timeinfo : tm)
    (pulseArray : list Z) : list Z :=
  (* first 20 bits are logical 0s *)
  let pa := fillShort 20 0 ArrayOffset pulseArray in
  (* DayLightSaving bit *)
  let pa := if tm_isdst timeinfo =? 1
            then store pa (Int.add 17 ArrayOffset) 2
            else store pa (Int.add 18 ArrayOffset) 2 in
  (* bit 20 must be 1 to indicate time active *)
  let pa := store pa (Int.add 20 ArrayOffset) 2 in
  (* minutes *)
  let r := encodeBits 7 21 ArrayOffset (bin2Bcd (tm_min timeinfo)) 0 pa in
  let pa := storeParity (fst r) (Int.add 28 ArrayOffset) (snd r) in
  (* hours *)
  let r := encodeBits 6 29 ArrayOffset (bin2Bcd (tm_hour timeinfo)) 0 pa in
  let pa := storeParity (fst r) (Int.add 35 ArrayOffset) (snd r) in
  (* day, weekday, month, year share one parity count *)
  let r := encodeBits 6 36 ArrayOffset (bin2Bcd (tm_mday timeinfo)) 0 pa in
  let r := encodeBits 3 42 ArrayOffset (bin2Bcd (tm_wday timeinfo)) (snd r) (fst r) in
  let r := encodeBits 5 45 ArrayOffset (bin2Bcd (tm_mon timeinfo)) (snd r) (fst r) in
  let r := encodeBits 8 50 ArrayOffset
             (bin2Bcd (Int.sub (tm_year timeinfo) 2000)) (snd r) (fst r) in
  (* date parity *)
  let pa := storeParity (fst r) (Int.add 58 ArrayOffset) (snd r) in
  (* last missing pulse *)
  store pa (Int.add 59 ArrayOffset) 0.

(** ** Emitter and composer state: the globals of main.cpp *)

Record state : Type := mkState {
  pulseArray : list Z;          (* int pulseArray[MaxPulseNumber] *)
  pulseCount : Z;
  dcfOutputOn : Z;
  partialpulseCount : Z;
  lastCheck : Z;                (* unsigned long *)
  timeCorrectionOffset : Z;
  pinLog : list Z;              (* digitalWrite(DCF_OUT_PIN, v) calls, newest first *)
  clock_ms : Z                  (* milliseconds elapsed since the ticker was attached *)
}.

Definition set_pulseArray (v : list Z) (st : state) : state :=
  mkState v (pulseCount st) (dcfOutputOn st) (partialpulseCount st)
    (lastCheck st) (timeCorrectionOffset st) (pinLog st) (clock_ms st).
Definition set_pulseCount (v : Z) (st : state) : state :=
  mkState (pulseArray st) v (dcfOutputOn st) (partialpulseCount st)
    (lastCheck st) (timeCorrectionOffset st) (pinLog st) (clock_ms st).
Definition set_dcfOutputOn (v : Z) (st : state) : state :=
  mkState (pulseArray st) (pulseCount st) v (partialpulseCount st)
    (lastCheck st) (timeCorrectionOffset st) (pinLog st) (clock_ms st).
Definition set_partialpulseCount (v : Z) (st : state) : state :=
  mkState (pulseArray st) (pulseCount st) (dcfOutputOn st) v
    (lastCheck st) (timeCorrectionOffset st) (pinLog st) (clock_ms st).
Definition set_lastCheck (v : Z) (st : state) : state :=
  mkState (pulseArray st) (pulseCount st) (dcfOutputOn st) (partialpulseCount st)
    v (timeCorrectionOffset st) (pinLog st) (clock_ms st).
Definition set_clock_ms (v : Z) (st : state) : state :=
  mkState (pulseArray st) (pulseCount st) (dcfOutputOn st) (partialpulseCount st)
    (lastCheck st) (timeCorrectionOffset st) (pinLog st) v.

(** [digitalWrite(DCF_OUT_PIN, v)] *)
Definition digitalWrite (v : Z) (st : state) : state :=
  mkState (pulseArray st) (pulseCount st) (dcfOutputOn st) (partialpulseCount st)
    (lastCheck st) (timeCorrectionOffset st) (v :: pinLog st) (clock_ms st).

(** Level of the output line: the value of the latest [digitalWrite]. *)
Definition pinLevel (st : state) : Z := hd 0 (pinLog st).

(** [pulseArray[pulseCount]] as the emitter reads it.  A read outside the
    array is undefined in C++ and yields 0 here; [pulseCount] stays
    within 0..182 in every reachable state. *)
Definition currentPulse (st : state) : Z :=
  default 0 (slot (pulseArray st) (pulseCount st)).

(** ** dcfOut (main.cpp 346-375): called every 100 msec *)

Definition dcfOut (st : state) : state :=
  if dcfOutputOn st =? 1 then
    (* switch (partialpulseCount++) *)
    let sub := partialpulseCount st in
    let st := set_partialpulseCount (Int.add sub 1) st in
    if sub =? 0 then
      if negb (currentPulse st =? 0) then digitalWrite 0 st else st
    else if sub =? 1 then
      if currentPulse st =? 1 then digitalWrite 1 st else st
    else if sub =? 2 then
      digitalWrite 1 st
    else if sub =? 9 then
      (* if (pulseCount++ == (MaxPulseNumber - 1)) *)
      let sent := pulseCount st in
      let st := set_pulseCount (Int.add sent 1) st in
      let st := if sent =? MaxPulseNumber - 1
                then set_dcfOutputOn 0 (set_pulseCount 0 st)
                else st in
      set_partialpulseCount 0 st
    else st
  else st.

(** ** setupDcf (main.cpp 543-562) *)

(** The globals as the C++ runtime zero-initialises them; the pin has not
    been written and the ticker is not attached yet. *)
Definition bootState (offset : Z) : state :=
  mkState (replicate (Z.to_nat MaxPulseNumber) 0) 0 0 0 0 offset [] 0.

Definition setupDcf (st : state) : state :=
  (* pinMode(DCF_OUT_PIN, OUTPUT); digitalWrite(DCF_OUT_PIN, LOW); *)
  let st := digitalWrite 0 st in
  (* dcfOutTimer.attach_ms(100, dcfOut); *)
  let st := set_clock_ms 0 st in
  let pa := store (pulseArray st) 0 1 in
  let pa := store pa 1 0 in
  let pa := store pa (MaxPulseNumber - 1) 1 in
  let st := set_pulseArray pa st in
  let st := set_pulseCount 0 st in
  set_dcfOutputOn 0 st.

(** ** delay(ms)

    The sketch runs cooperatively: the ticker callback [dcfOut] only runs
    while the main code yields, which in [readAndDecodeTime] happens
    inside [delay].  A delay of [ms] milliseconds advances the clock and
    lets the 100 ms ticker fire once for every multiple of 100 ms that the
    clock passes (computation itself is taken to be instantaneous). *)
Definition ticksDuring (t0 ms : Z) : nat :=
  Z.to_nat ((t0 + ms) / 100 - t0 / 100).

Definition delay (ms : Z) (st : state) : state :=
  Nat.iter (ticksDuring (clock_ms st) ms) dcfOut
    (set_clock_ms (clock_ms st + ms) st).

(** ** The C library's mktime

    [mktime] is not part of main.cpp; [readAndDecodeTime] calls it to
    bring a [struct tm] back into range after adding to [tm_sec] or
    [tm_min].  The model follows the field normalisation of the C
    library: seconds carry into minutes, minutes into hours, hours into
    days, months into years, and the day of the month is brought into
    the month's length one month at a time; [tm_wday] and [tm_yday] are
    recomputed from the date.  Time-zone rules are not modelled:
    [tm_isdst] is returned as given and no daylight-saving shift is
    applied. *)

Module Libc.

(** [y] counts years since 1900, as [tm_year] does. *)
Definition isleap (y : Z) : bool :=
  (Z.rem y 4 =? 0) && (negb (Z.rem y 100 =? 0) || (Z.rem (y + 1900) 400 =? 0)).

Definition days_in_month (year mon : Z) : Z :=
  if mon =? 1 then (if isleap year then 29 else 28)
  else if (mon =? 3) || (mon =? 5) || (mon =? 8) || (mon =? 10) then 30
  else 31.

Definition days_before_month (mon : Z) : Z :=
  nth (Z.to_nat mon) [0; 31; 59; 90; 120; 151; 181; 212; 243; 273; 304; 334] 0.

(** Bring [v] into [0, base): the pair is (carry into the next field,
    normalised value).  Division truncates, as C's [div] does. *)
Definition carry (v base : Z) : Z * Z :=
  if (v <? 0) || (base - 1 <? v) then
    let q := v ÷ base in
    let r := Z.rem v base in
    if r <? 0 then (q - 1, r + base) else (q, r)
  else (0, v).

(** [while (mday > days_in_month) { mday -= days_in_month; ++mon ... }] *)
Fixpoint mday_forward (fuel : nat) (mday mon year : Z) : Z * Z * Z :=
  match fuel with
  | O => (mday, mon, year)
  | S f =>
      if days_in_month year mon <? mday then
        let mday := mday - days_in_month year mon in
        if mon + 1 =? 12 then mday_forward f mday 0 (year + 1)
        else mday_forward f mday (mon + 1) year
      else (mday, mon, year)
  end.

(** [while (mday <= 0) { --mon ...; mday += days_in_month; }] *)
Fixpoint mday_backward (fuel : nat) (mday mon year : Z) : Z * Z * Z :=
  match fuel with
  | O => (mday, mon, year)
  | S f =>
      if mday <=? 0 then
        let '(mon, year) := if mon - 1 =? -1 then (11, year - 1)
                            else (mon - 1, year) in
        mday_backward f (mday + days_in_month year mon) mon year
      else (mday, mon, year)
  end.

(** Every round of either loop moves [mday] by at least 28 towards the
    month's range, so [|mday| + 1] rounds always suffice. *)
Definition normalize_mday (mday mon year : Z) : Z * Z * Z :=
  if mday <=? 0
  then mday_backward (Z.to_nat (1 - mday)) mday mon year
  else mday_forward (Z.to_nat mday) mday mon year.

(** Leap days between 1 January 1970 and 1 January of year [1900 + y]. *)
Definition leaps_before (y : Z) : Z :=
  let c := y + 1899 in
  (c / 4 - c / 100 + c / 400) - (1969 / 4 - 1969 / 100 + 1969 / 400).

Definition days_since_epoch (mday mon year : Z) : Z :=
  (mday - 1) + days_before_month mon
  + (if (1 <? mon) && isleap year then 1 else 0)
  + 365 * (year - 70) + leaps_before year.

Definition mktime (t : tm) : tm :=
  let '(cmin, sec) := carry (tm_sec t) 60 in
  let '(chour, min) := carry (tm_min t + cmin) 60 in
  let '(cday, hour) := carry (tm_hour t + chour) 24 in
  let '(cyear, mon) := carry (tm_mon t) 12 in
  let '(mday, mon, year) :=
    normalize_mday (tm_mday t + cday) mon (tm_year t + cyear) in
  let yday := (mday - 1) + days_before_month mon
              + (if (1 <? mon) && isleap year then 1 else 0) in
  let wday := (days_since_epoch mday mon year + 4) mod 7 in
  mkTm sec min hour mday mon year wday yday (tm_isdst t).

End Libc.

Definition set_tm_sec (v : Z) (t : tm) : tm :=
  mkTm v (tm_min t) (tm_hour t) (tm_mday t) (tm_mon t) (tm_year t)
    (tm_wday t) (tm_yday t) (tm_isdst t).
Definition set_tm_min (v : Z) (t : tm) : tm :=
  mkTm (tm_sec t) v (tm_hour t) (tm_mday t) (tm_mon t) (tm_year t)
    (tm_wday t) (tm_yday t) (tm_isdst t).

(** ** readAndDecodeTime (main.cpp 489-541)

    [now] is the [struct tm] that [localtime] returns for the current
    time. *)

(** [timeinfo->tm_sec += timeCorrectionOffset; mktime(timeinfo);] *)
Definition correctedTime (now : tm) (st : state) : tm :=
  Libc.mktime (set_tm_sec (Int.add (tm_sec now) (timeCorrectionOffset st)) now).

(** [timeinfo->tm_min += 1; mktime(timeinfo);] *)
Definition addMinute (timeinfo : tm) : tm :=
  Libc.mktime (set_tm_min (Int.add (tm_min timeinfo) 1) timeinfo).

Definition readAndDecodeTime (now : tm) (st : state) : state :=
  let timeinfo := correctedTime now st in
  if 56 <? tm_sec timeinfo then
    (* lastCheck += 30000; return; *)
    set_lastCheck (Int.ulong_wrap (lastCheck st + 30000)) st
  else
    let st := set_pulseArray
                (calculateArray FirstMinutePulseBegin timeinfo (pulseArray st)) st in
    let timeinfo := addMinute timeinfo in
    let st := set_pulseArray
                (calculateArray SecondMinutePulseBegin timeinfo (pulseArray st)) st in
    let timeinfo := addMinute timeinfo in
    let st := set_pulseArray
                (calculateArray ThirdMinutePulseBegin timeinfo (pulseArray st)) st in
    let SkipSeconds := Int.sub 58 (tm_sec timeinfo) in
    let st := delay (Int.mul SkipSeconds 1000) st in
    (* DCF begin *)
    let st := set_dcfOutputOn 1 st in
    delay 150000 st.

(** ** Reading a frame back: what a DCF77 receiver decodes *)

(** A pulse carries a bit: Short is 0, Long is 1; no pulse carries none. *)
Definition pulseBit (code : Z) : option Z :=
  if code =? 1 then Some 0 else if code =? 2 then Some 1 else None.

(** The bits of [width] consecutive slots from [start], first slot first. *)
Fixpoint fieldBits (pa : list Z) (start : Z) (width : nat) : option (list Z) :=
  match width with
  | O => Some []
  | S w =>
      match slot pa start ≫= pulseBit, fieldBits pa (start + 1) w with
      | Some b, Some bs => Some (b :: bs)
      | _, _ => None
      end
  end.

(** Value of a bit string sent least significant bit first. *)
Fixpoint bitsValue (bs : list Z) : Z :=
  match bs with
  | [] => 0
  | b :: bs => b + 2 * bitsValue bs
  end.

(** Packed BCD to decimal: tens in the high nibble, units in the low one. *)
Definition bcdDecode (v : Z) : Z := 10 * (v / 16) + v mod 16.

Definition decodeField (pa : list Z) (start : Z) (width : nat) : option Z :=
  (fun bs => bcdDecode (bitsValue bs)) <$> fieldBits pa start width.

(** Number of 1 bits in a bit string. *)
Definition popcount (bs : list Z) : Z := fold_right Z.add 0 bs.

(** Bit [j] of [v] as the bit loop extracts it: [(v >> j) & 1]. *)
Definition bitAt (v j : Z) : Z := Z.land (Z.shiftr v j) 1.

(** Sum of the [count] low bits of [v]: what the loop adds to [ParityCount]. *)
Fixpoint bitsSum (count : nat) (v : Z) : Z :=
  match count with
  | O => 0
  | S c => Z.land v 1 + bitsSum c (Z.shiftr v 1)
  end.

Definition parityCode (ParityCount : Z) : Z :=
  if Z.land ParityCount 1 =? 0 then 1 else 2.

Definition dateParityCount (t : tm) : Z :=
  bitsSum 6 (bin2Bcd (tm_mday t)) + bitsSum 3 (bin2Bcd (tm_wday t))
  + bitsSum 5 (bin2Bcd (tm_mon t))
  + bitsSum 8 (bin2Bcd (Int.sub (tm_year t) 2000)).

(** The pulse code that [calculateArray] leaves at second [k] of the
    minute, read off the last assignment to that slot. *)
Definition frameSlot (t : tm) (k : Z) : Z :=
  if k =? 59 then 0
  else if k =? 58 then parityCode (dateParityCount t)
  else if 50 <=? k then bitAt (bin2Bcd (Int.sub (tm_year t) 2000)) (k - 50) + 1
  else if 45 <=? k then bitAt (bin2Bcd (tm_mon t)) (k - 45) + 1
  else if 42 <=? k then bitAt (bin2Bcd (tm_wday t)) (k - 42) + 1
  else if 36 <=? k then bitAt (bin2Bcd (tm_mday t)) (k - 36) + 1
  else if k =? 35 then parityCode (bitsSum 6 (bin2Bcd (tm_hour t)))
  else if 29 <=? k then bitAt (bin2Bcd (tm_hour t)) (k - 29) + 1
  else if k =? 28 then parityCode (bitsSum 7 (bin2Bcd (tm_min t)))
  else if 21 <=? k then bitAt (bin2Bcd (tm_min t)) (k - 21) + 1
  else if k =? 20 then 2
  else if k =? 18 then (if tm_isdst t =? 1 then 1 else 2)
  else if k =? 17 then (if tm_isdst t =? 1 then 2 else 1)
  else 1.

(** * Vocabulary of the statements *)

(** The [width] low bits of [v], least significant first. *)
Fixpoint lowBits (width : nat) (v : Z) : list Z :=
  match width with
  | O => []
  | S w => Z.land v 1 :: lowBits w (Z.shiftr v 1)
  end.

(** Two decimal digits packed as the format prescribes. *)
Definition packedBcd (m : Z) : Z := 16 * (m / 10) + m mod 10.

(** A buffer of the size of [pulseArray] that can hold a frame at [off]. *)
Definition frameFits (off : Z) (pa : list Z) : Prop :=
  0 <= off /\ off + 60 <= Z.of_nat (length pa) /\
  length pa = Z.to_nat MaxPulseNumber.

(** The three frames of one telegram, as [readAndDecodeTime] writes them. *)
Definition composeFrames (timeinfo : tm) (pa : list Z) : list Z :=
  calculateArray ThirdMinutePulseBegin (addMinute (addMinute timeinfo))
    (calculateArray SecondMinutePulseBegin (addMinute timeinfo)
       (calculateArray FirstMinutePulseBegin timeinfo pa)).

(** What can happen to the globals between two observations: the ticker
    fires, the composer writes the three frames, switches the output on or
    bumps [lastCheck], or time passes. *)
Inductive step : state -> state -> Prop :=
  | step_tick st : step st (dcfOut st)
  | step_frames timeinfo st :
      step st (set_pulseArray (composeFrames timeinfo (pulseArray st)) st)
  | step_activate st : step st (set_dcfOutputOn 1 st)
  | step_lastCheck v st : step st (set_lastCheck v st)
  | step_clock v st : step st (set_clock_ms v st).

(** States reachable after [setupDcf] has run on the freshly booted globals. *)
Inductive reachable : state -> Prop :=
  | reach_setup offset : reachable (setupDcf (bootState offset))
  | reach_step st st' : reachable st -> step st st' -> reachable st'.

(** The buffer as every reachable state has it: 183 pulse codes, with the
    header Short, None in front and the trailer Short at the end. *)
Definition telegramOk (pa : list Z) : Prop :=
  length pa = Z.to_nat MaxPulseNumber
  /\ slot pa 0 = Some PulseShort
  /\ slot pa 1 = Some PulseNone
  /\ slot pa (MaxPulseNumber - 1) = Some PulseShort
  /\ forall j v, slot pa j = Some v ->
       v = PulseNone \/ v = PulseShort \/ v = PulseLong.

(** The emitter's counters stay inside the buffer and the slot, and are
    both zero whenever the output is off. *)
Definition emitterOk (st : state) : Prop :=
  0 <= pulseCount st <= MaxPulseNumber - 1
  /\ 0 <= partialpulseCount st <= 9
  /\ (dcfOutputOn st = 0 \/ dcfOutputOn st = 1)
  /\ (dcfOutputOn st = 0 -> pulseCount st = 0 /\ partialpulseCount st = 0).

(** The [digitalWrite] log after the first [k] ticks of a slot that holds
    [code], on top of the log [log] the slot started with. *)
Fixpoint slotLog (code : Z) (log : list Z) (k : nat) : list Z :=
  match k with
  | O => log
  | S k' =>
      let l := slotLog code log k' in
      let sub := Z.of_nat k' in
      if sub =? 0 then (if code =? 0 then l else 0 :: l)
      else if sub =? 1 then (if code =? 1 then 1 :: l else l)
      else if sub =? 2 then 1 :: l
      else l
  end.

(** A broken-down time whose fields are all in range. *)
Definition calendarValid (t : tm) : Prop :=
  0 <= tm_sec t <= 59 /\ 0 <= tm_min t <= 59 /\ 0 <= tm_hour t <= 23
  /\ 0 <= tm_mon t <= 11
  /\ 1 <= tm_mday t <= Libc.days_in_month (tm_year t) (tm_mon t).

(** [t'] is the calendar minute that follows [t]: the minute advances and
    rolls over into the hour, the hour into the day, the day into the
    month and the month into the year; seconds and the daylight-saving
    flag stay. *)
Definition calendarSucc (t t' : tm) : Prop :=
  tm_sec t' = tm_sec t /\ tm_isdst t' = tm_isdst t /\
  if tm_min t <? 59 then
    tm_min t' = tm_min t + 1 /\ tm_hour t' = tm_hour t
    /\ tm_mday t' = tm_mday t /\ tm_mon t' = tm_mon t
    /\ tm_year t' = tm_year t
  else
    tm_min t' = 0 /\
    if tm_hour t <? 23 then
      tm_hour t' = tm_hour t + 1
      /\ tm_mday t' = tm_mday t /\ tm_mon t' = tm_mon t
      /\ tm_year t' = tm_year t
    else
      tm_hour t' = 0 /\
      if tm_mday t <? Libc.days_in_month (tm_year t) (tm_mon t) then
        tm_mday t' = tm_mday t + 1 /\ tm_mon t' = tm_mon t
        /\ tm_year t' = tm_year t
      else
        tm_mday t' = 1 /\
        if tm_mon t <? 11 then
          tm_mon t' = tm_mon t + 1 /\ tm_year t' = tm_year t
        else
          tm_mon t' = 0 /\ tm_year t' = tm_year t + 1.

(** A (day, month, year) triple whose month and day are in range. *)
Definition dateValid (d : Z * Z * Z) : Prop :=
  let '(mday, mon, year) := d in
  0 <= mon <= 11 /\ 1 <= mday <= Libc.days_in_month year mon.

(** What a receiver decodes from the frame at [off]: minute, hour, day of
    the month and month field. *)
Definition decodedMinute (pa : list Z) (off : Z) : option Z :=
  decodeField pa (off + 21) 7.
Definition decodedHour (pa : list Z) (off : Z) : option Z :=
  decodeField pa (off + 29) 6.
Definition decodedDay (pa : list Z) (off : Z) : option Z :=
  decodeField pa (off + 36) 6.
Definition decodedMonthField (pa : list Z) (off : Z) : option Z :=
  decodeField pa (off + 45) 5.

(** How a call can end. *)
Inductive outcome (A : Type) : Type :=
  | Returned (v : A)
  | Aborted.
Arguments Returned {A} v.
Arguments Aborted {A}.

(** [bin2Bcd] contains no range check, assertion or throw: every call
    runs to one of its two [return] statements. *)
Definition call_bin2Bcd (dato : Z) : outcome Z := Returned (bin2Bcd dato).

(** 31 December 2024, 23:59:30, as [localtime] reports it. *)
Definition newYearsEve : tm := mkTm 30 59 23 31 11 124 2 365 0.

(** The globals right after [setupDcf], with no correction offset. *)
Definition freshState : state := setupDcf (bootState 0).

(** ** The composer with the platform's mktime left open

    [mktime] belongs to the C library, not to main.cpp, and under the
    sketch's time-zone rule it also applies the daylight-saving shift.
    The definitions below are the body of [readAndDecodeTime] again, with
    [mktime] as a parameter; [readAndDecodeTime] is their instance at
    [Libc.mktime]. *)

Definition correctedTimeWith (mktime : tm -> tm) (now : tm) (st : state) : tm :=
  mktime (set_tm_sec (Int.add (tm_sec now) (timeCorrectionOffset st)) now).

Definition addMinuteWith (mktime : tm -> tm) (timeinfo : tm) : tm :=
  mktime (set_tm_min (Int.add (tm_min timeinfo) 1) timeinfo).

Definition readAndDecodeTimeWith (mktime : tm -> tm) (now : tm) (st : state)
    : state :=
  let timeinfo := correctedTimeWith mktime now st in
  if 56 <? tm_sec timeinfo then
    set_lastCheck (Int.ulong_wrap (lastCheck st + 30000)) st
  else
    let st := set_pulseArray
                (calculateArray FirstMinutePulseBegin timeinfo (pulseArray st)) st in
    let timeinfo := addMinuteWith mktime timeinfo in
    let st := set_pulseArray
                (calculateArray SecondMinutePulseBegin timeinfo (pulseArray st)) st in
    let timeinfo := addMinuteWith mktime timeinfo in
    let st := set_pulseArray
                (calculateArray ThirdMinutePulseBegin timeinfo (pulseArray st)) st in
    let SkipSeconds := Int.sub 58 (tm_sec timeinfo) in
    let st := delay (Int.mul SkipSeconds 1000) st in
    let st := set_dcfOutputOn 1 st in
    delay 150000 st.

(** Two broken-down times that show the same date and time of day. *)
Definition sameCivilTime (a b : tm) : Prop :=
  tm_sec a = tm_sec b /\ tm_min a = tm_min b /\ tm_hour a = tm_hour b
  /\ tm_mday a = tm_mday b /\ tm_mon a = tm_mon b /\ tm_year a = tm_year b.

(** ** The Gregorian calendar, stated on calendar years and months 1..12 *)

Definition gregorianLeap (Y : Z) : bool :=
  (Y mod 4 =? 0) && (negb (Y mod 100 =? 0) || (Y mod 400 =? 0)).

Definition civilDaysInMonth (Y M : Z) : Z :=
  nth (Z.to_nat (M - 1))
    [31; if gregorianLeap Y then 29 else 28; 31; 30; 31; 30;
     31; 31; 30; 31; 30; 31] 0.

(** [t'] shows the calendar minute after the one [t] shows: the minute
    advances; 59 rolls over to 0 with the hour advanced; 23:59 rolls over
    to 00:00 of the next day, which is day 1 of the next month after the
    last day of a month and 1 January of the next year after 31 December.
    The seconds stay. *)
Definition civilSucc (t t' : tm) : Prop :=
  tm_sec t' = tm_sec t /\
  if tm_min t <? 59 then
    tm_min t' = tm_min t + 1 /\ tm_hour t' = tm_hour t
    /\ tm_mday t' = tm_mday t /\ calendar_month t' = calendar_month t
    /\ calendar_year t' = calendar_year t
  else
    tm_min t' = 0 /\
    if tm_hour t <? 23 then
      tm_hour t' = tm_hour t + 1
      /\ tm_mday t' = tm_mday t /\ calendar_month t' = calendar_month t
      /\ calendar_year t' = calendar_year t
    else
      tm_hour t' = 0 /\
      if tm_mday t <? civilDaysInMonth (calendar_year t) (calendar_month t) then
        tm_mday t' = tm_mday t + 1 /\ calendar_month t' = calendar_month t
        /\ calendar_year t' = calendar_year t
      else
        tm_mday t' = 1 /\
        if calendar_month t <? 12 then
          calendar_month t' = calendar_month t + 1
          /\ calendar_year t' = calendar_year t
        else
          calendar_month t' = 1 /\ calendar_year t' = calendar_year t + 1.

(** ** loop (main.cpp 629-653): the periodic poll

    The last statement of [loop]:
[[
    if ((millis() - lastCheck) > checkInterval) {
      lastCheck = millis();
      printLocalTime();
      readAndDecodeTime();
    }
]]
    [ms] is the value [millis()] returns (an [unsigned long]) and [now]
    the time [localtime] reports inside [readAndDecodeTime];
    [printLocalTime] only prints.  The WiFi branch in front of this
    statement is not modelled. *)

Definition checkInterval : Z := 60000.

Definition loopPoll (ms : Z) (now : tm) (st : state) : state :=
  if checkInterval <? Int.ulong_wrap (ms - lastCheck st) then
    readAndDecodeTime now (set_lastCheck ms st)
  else st.

(** The emitter's counters: slot index, active flag, sub-tick. *)
Definition counters (st : state) : Z * Z * Z :=
  (pulseCount st, dcfOutputOn st, partialpulseCount st).

(** What one call of [dcfOut] does to the counters. *)
Definition tickCounters (c : Z * Z * Z) : Z * Z * Z :=
  let '(pc, on, sub) := c in
  if on =? 1 then
    if sub =? 9 then
      (if pc =? MaxPulseNumber - 1 then (0, 0, 0) else (Int.add pc 1, 1, 0))
    else (pc, 1, Int.add sub 1)
  else c.

(** * Facts *)

(** ** Machine integers *)

Lemma int_wrap_small z : Int.in_range z -> Int.int_wrap z = z.
Proof.
  unfold Int.in_range, Int.int_wrap. intros H.
  rewrite Z.mod_small; lia.
Qed.

Lemma int_add_small a b : Int.in_range (a + b) -> Int.add a b = a + b.
Proof. apply int_wrap_small. Qed.

Lemma int_sub_small a b : Int.in_range (a - b) -> Int.sub a b = a - b.
Proof. apply int_wrap_small. Qed.

Lemma int_mul_small a b : Int.in_range (a * b) -> Int.mul a b = a * b.
Proof. apply int_wrap_small. Qed.

Lemma land_1_cases v : Z.land v 1 = 0 \/ Z.land v 1 = 1.
Proof.
  assert (Z.land v 1 = v mod 2 ^ 1) as -> by (apply (Z.land_ones v 1); lia).
  pose proof (Z.mod_pos_bound v (2 ^ 1) ltac:(lia)). lia.
Qed.

Lemma bitAt_cases v j : bitAt v j = 0 \/ bitAt v j = 1.
Proof. apply land_1_cases. Qed.

Lemma bitsSum_bounds c v : 0 <= bitsSum c v <= Z.of_nat c.
Proof.
  revert v. induction c as [|c IH]; intros v; cbn [bitsSum]; [lia|].
  specialize (IH (Z.shiftr v 1)). destruct (land_1_cases v); lia.
Qed.

(** Small bounds are inside the [int] range. *)
Ltac int_small :=
  unfold Int.in_range; change (2 ^ 31) with 2147483648; lia.

(** ** Array reads and writes *)

(** Case split on every integer comparison in the goal. *)
Ltac zcases :=
  repeat (match goal with
    | |- context [?a <=? ?b] => destruct (Z.leb_spec a b)
    | |- context [?a <? ?b] => destruct (Z.ltb_spec a b)
    | |- context [?a =? ?b] => destruct (Z.eqb_spec a b)
    end; cbn [andb orb negb]; try lia);
  try reflexivity.

Lemma store_length pa i v : length (store pa i v) = length pa.
Proof. unfold store. destruct (0 <=? i); [apply length_insert | reflexivity]. Qed.

Lemma slot_in_bounds (pa : list Z) j :
  0 <= j < Z.of_nat (length pa) -> exists v, slot pa j = Some v.
Proof.
  intros H. unfold slot. destruct (Z.leb_spec 0 j); [|lia].
  destruct (lookup_lt_is_Some_2 pa (Z.to_nat j)) as [v Hv]; [lia|]. eauto.
Qed.

Lemma slot_store pa i v j :
  slot (store pa i v) j =
    if (i =? j) && (0 <=? i) && (i <? Z.of_nat (length pa)) then Some v
    else slot pa j.
Proof.
  unfold slot, store.
  destruct (Z.eqb_spec i j) as [->|Hne]; cbn [andb].
  - destruct (Z.leb_spec 0 j); cbn [andb]; [|reflexivity].
    destruct (Z.ltb_spec j (Z.of_nat (length pa))).
    + apply list_lookup_insert_eq. lia.
    + rewrite list_insert_ge by lia. reflexivity.
  - destruct (Z.leb_spec 0 j), (Z.leb_spec 0 i); try reflexivity.
    apply list_lookup_insert_ne. lia.
Qed.

Lemma storeParity_length pa i p : length (storeParity pa i p) = length pa.
Proof. unfold storeParity. destruct (_ =? _); apply store_length. Qed.

Lemma slot_storeParity pa i p j :
  slot (storeParity pa i p) j =
    if (i =? j) && (0 <=? i) && (i <? Z.of_nat (length pa))
    then Some (parityCode p) else slot pa j.
Proof.
  unfold storeParity, parityCode.
  destruct (Z.land p 1 =? 0); apply slot_store.
Qed.

Lemma fillShort_length c n off pa : length (fillShort c n off pa) = length pa.
Proof.
  revert n pa. induction c as [|c IH]; intros n pa; cbn [fillShort]; [reflexivity|].
  rewrite IH. apply store_length.
Qed.

Lemma slot_fillShort c n off pa j :
  0 <= n -> 0 <= off -> n + off + Z.of_nat c <= Z.of_nat (length pa) ->
  Z.of_nat (length pa) <= 2 ^ 30 ->
  slot (fillShort c n off pa) j =
    if (n + off <=? j) && (j <? n + off + Z.of_nat c) then Some 1
    else slot pa j.
Proof.
  revert n pa. induction c as [|c IH]; intros n pa Hn Hoff Hlen Hmax;
    cbn [fillShort].
  - zcases.
  - rewrite !int_add_small by int_small.
    rewrite IH by (rewrite ?store_length; lia).
    rewrite slot_store. zcases.
Qed.

Lemma encodeBits_length c n off v p pa :
  length (fst (encodeBits c n off v p pa)) = length pa.
Proof.
  revert n v p pa. induction c as [|c IH]; intros n v p pa; cbn [encodeBits];
    [reflexivity|].
  rewrite IH. apply store_length.
Qed.

Lemma slot_encodeBits c n off v p pa j :
  0 <= n -> 0 <= off -> n + off + Z.of_nat c <= Z.of_nat (length pa) ->
  Z.of_nat (length pa) <= 2 ^ 30 ->
  slot (fst (encodeBits c n off v p pa)) j =
    if (n + off <=? j) && (j <? n + off + Z.of_nat c)
    then Some (bitAt v (j - (n + off)) + 1)
    else slot pa j.
Proof.
  revert n v p pa. induction c as [|c IH]; intros n v p pa Hn Hoff Hlen Hmax;
    cbn [encodeBits fst].
  - zcases.
  - rewrite (int_add_small n 1), (int_add_small n off) by int_small.
    rewrite (int_add_small (Z.land v 1) 1)
      by (destruct (land_1_cases v); int_small).
    rewrite IH by (rewrite ?store_length; lia).
    rewrite slot_store.
    destruct (Z.eqb_spec (n + off) j) as [<-|Hne].
    + replace (n + off - (n + 1 + off)) with (-1) by lia.
      replace (n + off - (n + off)) with 0 by lia.
      unfold bitAt. rewrite Z.shiftr_0_r. zcases.
    + unfold bitAt.
      destruct (Z.leb_spec (n + 1 + off) j).
      * replace (j - (n + off)) with (1 + (j - (n + 1 + off))) by lia.
        rewrite <- Z.shiftr_shiftr by lia. zcases.
      * zcases.
Qed.

Lemma encodeBits_parity c n off v p pa :
  0 <= p -> p + Z.of_nat c <= 2 ^ 30 ->
  snd (encodeBits c n off v p pa) = p + bitsSum c v.
Proof.
  revert n v p pa. induction c as [|c IH]; intros n v p pa Hp Hmax;
    cbn [encodeBits snd bitsSum]; [lia|].
  destruct (land_1_cases v) as [E|E].
  - rewrite (int_add_small p) by (rewrite E; int_small).
    rewrite IH by lia. lia.
  - rewrite (int_add_small p) by (rewrite E; int_small).
    rewrite IH by lia. lia.
Qed.

(** ** The minute frame *)

Lemma calculateArray_length off t pa :
  length (calculateArray off t pa) = length pa.
Proof.
  unfold calculateArray. cbv zeta.
  rewrite store_length, storeParity_length, !encodeBits_length,
    storeParity_length, encodeBits_length, storeParity_length,
    encodeBits_length, store_length.
  destruct (tm_isdst t =? 1); rewrite store_length; apply fillShort_length.
Qed.

(** The same reads and writes, addressed by the second [k] of the frame
    that starts at [off]. *)
Section FrameRelative.

Variables (off k : Z) (pa : list Z).
Hypothesis Hoff : 0 <= off.
Hypothesis Hmax : Z.of_nat (length pa) <= 2 ^ 30.

Lemma slot_store_rel c v :
  0 <= c -> c + off < Z.of_nat (length pa) ->
  slot (store pa (c + off) v) (off + k) =
    if c =? k then Some v else slot pa (off + k).
Proof. intros. rewrite slot_store. zcases. Qed.

Lemma slot_storeParity_rel c p :
  0 <= c -> c + off < Z.of_nat (length pa) ->
  slot (storeParity pa (c + off) p) (off + k) =
    if c =? k then Some (parityCode p) else slot pa (off + k).
Proof. intros. rewrite slot_storeParity. zcases. Qed.

Lemma slot_encodeBits_rel c n v p :
  0 <= n -> n + off + Z.of_nat c <= Z.of_nat (length pa) ->
  slot (fst (encodeBits c n off v p pa)) (off + k) =
    if (n <=? k) && (k <? n + Z.of_nat c) then Some (bitAt v (k - n) + 1)
    else slot pa (off + k).
Proof.
  intros. rewrite slot_encodeBits by lia.
  replace (off + k - (n + off)) with (k - n) by lia. zcases.
Qed.

Lemma slot_fillShort_rel c n :
  0 <= n -> n + off + Z.of_nat c <= Z.of_nat (length pa) ->
  slot (fillShort c n off pa) (off + k) =
    if (n <=? k) && (k <? n + Z.of_nat c) then Some 1
    else slot pa (off + k).
Proof. intros. rewrite slot_fillShort by lia. zcases. Qed.

End FrameRelative.

(** Enumeration of a small integer range. *)
Lemma Z_range_cases (P : Z -> Prop) (n : nat) :
  (forall i : nat, (i < n)%nat -> P (Z.of_nat i)) ->
  forall z, 0 <= z < Z.of_nat n -> P z.
Proof.
  intros H z Hz. replace z with (Z.of_nat (Z.to_nat z)) by lia.
  apply H. lia.
Qed.

(** Rewrite every array length in the goal back to that of the input. *)
Ltac frame_lengths :=
  repeat first
    [ rewrite store_length | rewrite storeParity_length
    | rewrite encodeBits_length | rewrite fillShort_length ].

(** Push a read through the assignments of [calculateArray]. *)
Ltac frame_reads :=
  repeat first
    [ rewrite slot_store_rel by (frame_lengths; lia)
    | rewrite slot_storeParity_rel by (frame_lengths; lia)
    | rewrite slot_encodeBits_rel by (frame_lengths; lia)
    | rewrite slot_fillShort_rel by (frame_lengths; lia) ].

(** Inside the frame, [calculateArray] leaves [frameSlot]. *)
Lemma slot_calculateArray_in off t pa k :
  0 <= off -> off + 60 <= Z.of_nat (length pa) ->
  Z.of_nat (length pa) <= 2 ^ 30 ->
  0 <= k < 60 ->
  slot (calculateArray off t pa) (off + k) = Some (frameSlot t k).
Proof.
  intros Hoff Hlen Hmax Hk. unfold calculateArray. cbv zeta.
  rewrite !(int_add_small _ off) by int_small.
  pose proof (bitsSum_bounds 6 (bin2Bcd (tm_mday t))) as B1.
  pose proof (bitsSum_bounds 3 (bin2Bcd (tm_wday t))) as B2.
  pose proof (bitsSum_bounds 5 (bin2Bcd (tm_mon t))) as B3.
  rewrite (encodeBits_parity 7 21), (encodeBits_parity 6 29),
    (encodeBits_parity 6 36) by lia.
  rewrite (encodeBits_parity 3 42) by lia.
  rewrite (encodeBits_parity 5 45) by lia.
  rewrite (encodeBits_parity 8 50) by lia.
  rewrite !Z.add_0_l.
  unfold frameSlot, dateParityCount.
  revert k Hk. apply (Z_range_cases _ 60). intros i Hi.
  destruct (tm_isdst t =? 1); frame_reads;
    do 60 (destruct i as [|i]; [reflexivity|]); lia.
Qed.

(** Outside the frame, [calculateArray] changes nothing. *)
Lemma slot_calculateArray_out off t pa j :
  0 <= off -> off + 60 <= Z.of_nat (length pa) ->
  Z.of_nat (length pa) <= 2 ^ 30 ->
  j < off \/ off + 60 <= j ->
  slot (calculateArray off t pa) j = slot pa j.
Proof.
  intros Hoff Hlen Hmax Hj. unfold calculateArray. cbv zeta.
  rewrite !(int_add_small _ off) by int_small.
  assert (Hst : forall (pa0 : list Z) c v, 0 <= c < 60 ->
            slot (store pa0 (c + off) v) j = slot pa0 j).
  { intros. rewrite slot_store. zcases. }
  assert (Hsp : forall (pa0 : list Z) c p, 0 <= c < 60 ->
            slot (storeParity pa0 (c + off) p) j = slot pa0 j).
  { intros. rewrite slot_storeParity. zcases. }
  assert (Hen : forall (pa0 : list Z) c n v p,
            length pa0 = length pa -> 0 <= n -> n + Z.of_nat c <= 60 ->
            slot (fst (encodeBits c n off v p pa0)) j = slot pa0 j).
  { intros pa0 c n v p E ? ?. rewrite slot_encodeBits by lia. zcases. }
  rewrite Hst, Hsp by lia.
  rewrite !Hen by (frame_lengths; first [reflexivity | lia
    | destruct (tm_isdst t =? 1); frame_lengths; reflexivity]).
  rewrite Hsp by lia.
  rewrite Hen by (frame_lengths; first [reflexivity | lia
    | destruct (tm_isdst t =? 1); frame_lengths; reflexivity]).
  rewrite Hsp by lia.
  rewrite Hen by (frame_lengths; first [reflexivity | lia
    | destruct (tm_isdst t =? 1); frame_lengths; reflexivity]).
  rewrite Hst by lia.
  destruct (tm_isdst t =? 1); rewrite Hst by lia;
    rewrite slot_fillShort by lia; zcases.
Qed.

(** ** Bits of a field *)

Lemma bitAt_testbit v i : 0 <= i -> bitAt v i = Z.b2z (Z.testbit v i).
Proof.
  intros Hi. unfold bitAt.
  assert (Z.land (Z.shiftr v i) 1 = Z.shiftr v i mod 2 ^ 1) as ->
    by (apply (Z.land_ones _ 1); lia).
  change (2 ^ 1) with 2. rewrite <- Z.bit0_mod, Z.shiftr_spec by lia.
  rewrite Z.add_0_l. reflexivity.
Qed.

Lemma bitAt_succ v i : 0 <= i -> bitAt v (i + 1) = bitAt (Z.shiftr v 1) i.
Proof.
  intros Hi. unfold bitAt. rewrite Z.shiftr_shiftr by lia.
  rewrite (Z.add_comm 1 i). reflexivity.
Qed.

Lemma pulseBit_bit b : b = 0 \/ b = 1 -> pulseBit (b + 1) = Some b.
Proof. intros [-> | ->]; reflexivity. Qed.

(** A field whose slots hold the bits of [v] reads back as [lowBits]. *)
Lemma fieldBits_lowBits pa start width v :
  (forall i, 0 <= i < Z.of_nat width ->
     slot pa (start + i) = Some (bitAt v i + 1)) ->
  fieldBits pa start width = Some (lowBits width v).
Proof.
  revert start v. induction width as [|w IH]; intros start v H;
    cbn [fieldBits lowBits]; [reflexivity|].
  pose proof (H 0 ltac:(lia)) as H0. rewrite Z.add_0_r in H0.
  rewrite H0. cbn [mbind option_bind].
  rewrite pulseBit_bit by apply bitAt_cases.
  rewrite (IH (start + 1) (Z.shiftr v 1)).
  - unfold bitAt. rewrite Z.shiftr_0_r. reflexivity.
  - intros i Hi. rewrite <- bitAt_succ by lia.
    replace (start + 1 + i) with (start + (i + 1)) by lia.
    apply H. lia.
Qed.

Lemma bitsValue_lowBits width v :
  bitsValue (lowBits width v) = v mod 2 ^ Z.of_nat width.
Proof.
  revert v. induction width as [|w IH]; intros v; cbn [lowBits bitsValue].
  - rewrite Z.mod_1_r. reflexivity.
  - rewrite IH, Nat2Z.inj_succ, Z.pow_succ_r by lia.
    assert (Z.land v 1 = v mod 2 ^ 1) as -> by (apply (Z.land_ones v 1); lia).
    rewrite Z.shiftr_div_pow2 by lia. change (2 ^ 1) with 2.
    rewrite Z.rem_mul_r by lia. lia.
Qed.

Lemma popcount_lowBits width v : popcount (lowBits width v) = bitsSum width v.
Proof.
  revert v. induction width as [|w IH]; intros v;
    cbn [lowBits bitsSum popcount fold_right]; [reflexivity|].
  fold (popcount (lowBits w (Z.shiftr v 1))). rewrite IH. reflexivity.
Qed.

(** The parity pulse carries the low bit of the parity count. *)
Lemma pulseBit_parityCode p : pulseBit (parityCode p) = Some (Z.land p 1).
Proof.
  unfold parityCode. destruct (Z.eqb_spec (Z.land p 1) 0) as [E|E].
  - rewrite E. reflexivity.
  - destruct (land_1_cases p) as [E'|E']; [contradiction|].
    rewrite E'. reflexivity.
Qed.

Lemma even_add_land p : Z.even (p + Z.land p 1) = true.
Proof.
  assert (Z.land p 1 = p mod 2 ^ 1) as -> by (apply (Z.land_ones p 1); lia).
  change (2 ^ 1) with 2. rewrite Z.even_spec.
  exists (p / 2 + p mod 2).
  pose proof (Z.div_mod p 2 ltac:(lia)). lia.
Qed.

(** ** BCD *)

Lemma bin2Bcd_packed m : 0 <= m < 100 -> bin2Bcd m = packedBcd m.
Proof.
  revert m. apply (Z_range_cases _ 100). intros i Hi.
  do 100 (destruct i as [|i]; [reflexivity|]). lia.
Qed.

Lemma bcdDecode_packed m : 0 <= m < 100 -> bcdDecode (packedBcd m) = m.
Proof.
  revert m. apply (Z_range_cases _ 100). intros i Hi.
  do 100 (destruct i as [|i]; [reflexivity|]). lia.
Qed.

Lemma packedBcd_bound m hi :
  0 <= m <= hi -> hi < 100 -> 0 <= packedBcd m <= packedBcd hi + 9.
Proof.
  intros Hm Hhi. unfold packedBcd.
  pose proof (Z.mod_pos_bound m 10 ltac:(lia)).
  pose proof (Z.mod_pos_bound hi 10 ltac:(lia)).
  pose proof (Z.div_le_mono m hi 10 ltac:(lia) ltac:(lia)).
  pose proof (Z.div_pos m 10 ltac:(lia) ltac:(lia)). lia.
Qed.

(** Reading a field of a frame back. *)
Lemma fieldBits_frame off t pa k width v :
  0 <= off -> off + 60 <= Z.of_nat (length pa) ->
  Z.of_nat (length pa) <= 2 ^ 30 ->
  0 <= k -> k + Z.of_nat width <= 60 ->
  (forall i, 0 <= i < Z.of_nat width -> frameSlot t (k + i) = bitAt v i + 1) ->
  fieldBits (calculateArray off t pa) (off + k) width = Some (lowBits width v).
Proof.
  intros Hoff Hlen Hmax Hk Hw H. apply fieldBits_lowBits. intros i Hi.
  replace (off + k + i) with (off + (k + i)) by lia.
  rewrite slot_calculateArray_in by lia. rewrite H by lia. reflexivity.
Qed.

Lemma decodeField_frame off t pa k width v :
  0 <= off -> off + 60 <= Z.of_nat (length pa) ->
  Z.of_nat (length pa) <= 2 ^ 30 ->
  0 <= k -> k + Z.of_nat width <= 60 ->
  (forall i, 0 <= i < Z.of_nat width -> frameSlot t (k + i) = bitAt v i + 1) ->
  decodeField (calculateArray off t pa) (off + k) width =
    Some (bcdDecode (v mod 2 ^ Z.of_nat width)).
Proof.
  intros. unfold decodeField. erewrite fieldBits_frame by eassumption.
  cbn [fmap option_fmap option_map]. rewrite bitsValue_lowBits. reflexivity.
Qed.

(** Where each field sits in the frame. *)
Lemma frameSlot_minute t i :
  0 <= i < 7 -> frameSlot t (21 + i) = bitAt (bin2Bcd (tm_min t)) i + 1.
Proof. intros. unfold frameSlot. zcases. repeat f_equal. lia. Qed.

Lemma frameSlot_hour t i :
  0 <= i < 6 -> frameSlot t (29 + i) = bitAt (bin2Bcd (tm_hour t)) i + 1.
Proof. intros. unfold frameSlot. zcases. repeat f_equal. lia. Qed.

Lemma frameSlot_mday t i :
  0 <= i < 6 -> frameSlot t (36 + i) = bitAt (bin2Bcd (tm_mday t)) i + 1.
Proof. intros. unfold frameSlot. zcases. repeat f_equal. lia. Qed.

Lemma frameSlot_wday t i :
  0 <= i < 3 -> frameSlot t (42 + i) = bitAt (bin2Bcd (tm_wday t)) i + 1.
Proof. intros. unfold frameSlot. zcases. repeat f_equal. lia. Qed.

Lemma frameSlot_mon t i :
  0 <= i < 5 -> frameSlot t (45 + i) = bitAt (bin2Bcd (tm_mon t)) i + 1.
Proof. intros. unfold frameSlot. zcases. repeat f_equal. lia. Qed.

Lemma frameSlot_year t i :
  0 <= i < 8 ->
  frameSlot t (50 + i) = bitAt (bin2Bcd (Int.sub (tm_year t) 2000)) i + 1.
Proof. intros. unfold frameSlot. zcases. repeat f_equal. lia. Qed.

(** * The minute frame: properties of the encoded fields *)

Lemma frameFits_bounds off pa :
  frameFits off pa ->
  0 <= off /\ off + 60 <= Z.of_nat (length pa) /\
  Z.of_nat (length pa) <= 2 ^ 30.
Proof.
  unfold frameFits, MaxPulseNumber. intros (H1 & H2 & H3).
  rewrite H3 in *. change (2 ^ 30) with 1073741824. lia.
Qed.

(** C1. For a minute value 0..59 the frame that [calculateArray] builds
    holds, at seconds 21..27, the packed BCD digits of the minute, least
    significant bit first (bit 0 as a Short pulse, bit 1 as a Long one);
    decoding those seven pulses as BCD gives the minute back, and the
    pulse at second 28 makes the number of 1 bits among the eight even. *)
Theorem minute_field_roundtrip off t pa :
  frameFits off pa ->
  0 <= tm_min t <= 59 ->
  let pa' := calculateArray off t pa in
  (forall i, 0 <= i < 7 ->
     slot pa' (off + 21 + i) =
       Some (if Z.testbit (packedBcd (tm_min t)) i
             then PulseLong else PulseShort))
  /\ decodeField pa' (off + 21) 7 = Some (tm_min t)
  /\ exists bs p,
       fieldBits pa' (off + 21) 7 = Some bs
       /\ slot pa' (off + 28) ≫= pulseBit = Some p
       /\ Z.even (popcount bs + p) = true.
Proof.
  intros Hfit Hm pa'. subst pa'.
  destruct (frameFits_bounds _ _ Hfit) as (Hoff & Hlen & Hmax).
  split; [|split].
  - intros i Hi. replace (off + 21 + i) with (off + (21 + i)) by lia.
    rewrite slot_calculateArray_in by lia.
    rewrite frameSlot_minute, bin2Bcd_packed, bitAt_testbit by lia.
    destruct (Z.testbit _ i); reflexivity.
  - rewrite (decodeField_frame off t pa 21 7 (bin2Bcd (tm_min t)))
      by (try apply frameSlot_minute; lia).
    rewrite bin2Bcd_packed by lia.
    pose proof (packedBcd_bound (tm_min t) 59 ltac:(lia) ltac:(lia)) as B.
    change (packedBcd 59 + 9) with 98 in B.
    rewrite Z.mod_small by (change (2 ^ Z.of_nat 7) with 128; lia).
    rewrite bcdDecode_packed by lia. reflexivity.
  - exists (lowBits 7 (bin2Bcd (tm_min t))),
      (Z.land (bitsSum 7 (bin2Bcd (tm_min t))) 1).
    split; [|split].
    + apply fieldBits_frame; try lia. apply frameSlot_minute.
    + rewrite slot_calculateArray_in by lia.
      cbn [mbind option_bind]. apply pulseBit_parityCode.
    + rewrite popcount_lowBits. apply even_add_land.
Qed.

(** A frame at the first offset for minute 37, in a zeroed buffer. *)
Lemma minute_field_roundtrip_witness :
  frameFits 2 (replicate 183 0) /\ 0 <= 37 <= 59 /\
  decodeField
    (calculateArray 2 (mkTm 0 37 12 15 5 124 6 0 1) (replicate 183 0))
    23 7 = Some 37.
Proof.
  assert (Hfit : frameFits 2 (replicate 183 0))
    by (unfold frameFits, MaxPulseNumber; rewrite length_replicate; lia).
  assert (Hm : 0 <= 37 <= 59) by lia.
  split; [exact Hfit|]. split; [exact Hm|].
  exact (proj1 (proj2 (minute_field_roundtrip 2
           (mkTm 0 37 12 15 5 124 6 0 1) (replicate 183 0) Hfit Hm))).
Defined.

(** The month field holds [tm_mon] as it is. *)
Lemma month_field_is_tm_mon off t pa :
  frameFits off pa ->
  0 <= tm_mon t <= 11 ->
  decodeField (calculateArray off t pa) (off + 45) 5 =
    Some (calendar_month t - 1).
Proof.
  intros Hfit Hm.
  destruct (frameFits_bounds _ _ Hfit) as (Hoff & Hlen & Hmax).
  rewrite (decodeField_frame off t pa 45 5 (bin2Bcd (tm_mon t)))
    by (try apply frameSlot_mon; lia).
  rewrite bin2Bcd_packed by lia.
  pose proof (packedBcd_bound (tm_mon t) 11 ltac:(lia) ltac:(lia)) as B.
  change (packedBcd 11 + 9) with 26 in B.
  rewrite Z.mod_small by (change (2 ^ Z.of_nat 5) with 32; lia).
  rewrite bcdDecode_packed by lia. unfold calendar_month. f_equal. lia.
Qed.

(** C2 (defect). 15 January 2024 is calendar month 1, yet seconds 45..49
    of its frame carry five Short pulses and decode to month 0:
    [calculateArray] encodes [tm_mon], which counts months since January,
    without adding one. *)
Theorem month_field_january :
  let t := mkTm 0 30 12 15 0 124 1 14 0 in
  let pa' := calculateArray FirstMinutePulseBegin t (replicate 183 0) in
  calendar_month t = 1
  /\ fieldBits pa' (FirstMinutePulseBegin + 45) 5 = Some [0; 0; 0; 0; 0]
  /\ decodeField pa' (FirstMinutePulseBegin + 45) 5 = Some 0.
Proof. vm_compute. repeat split. Qed.

(** C3 (defect). For 15 January 2024 ([tm_year] = 124) the code encodes
    [124 - 2000 = -1876]; seconds 50..57 of the frame carry the low eight
    bits of that number and decode to 112, not to 24, the year within the
    century. *)
Theorem year_field_2024 :
  let t := mkTm 0 30 12 15 0 124 1 14 0 in
  let pa' := calculateArray FirstMinutePulseBegin t (replicate 183 0) in
  calendar_year t mod 100 = 24
  /\ bin2Bcd (Int.sub (tm_year t) 2000) = -1876
  /\ fieldBits pa' (FirstMinutePulseBegin + 50) 8 = Some [0; 0; 1; 1; 0; 1; 0; 1]
  /\ decodeField pa' (FirstMinutePulseBegin + 50) 8 = Some 112.
Proof. vm_compute. repeat split. Qed.

(** C4 (defect). For Sunday 14 January 2024 ([tm_wday] = 0) seconds 42..44
    of the frame carry three Short pulses: the weekday is encoded as 0,
    outside the range 1..7, not as 7. *)
Theorem weekday_field_sunday :
  let t := mkTm 0 30 12 14 0 124 0 13 0 in
  let pa' := calculateArray FirstMinutePulseBegin t (replicate 183 0) in
  tm_wday t = 0
  /\ slot pa' (FirstMinutePulseBegin + 42) = Some PulseShort
  /\ slot pa' (FirstMinutePulseBegin + 43) = Some PulseShort
  /\ slot pa' (FirstMinutePulseBegin + 44) = Some PulseShort
  /\ decodeField pa' (FirstMinutePulseBegin + 42) 3 = Some 0.
Proof. vm_compute. repeat split. Qed.

(** The weekday field holds [tm_wday] as it is, for every day of the week. *)
Lemma weekday_field_is_tm_wday off t pa :
  frameFits off pa ->
  0 <= tm_wday t <= 6 ->
  decodeField (calculateArray off t pa) (off + 42) 3 = Some (tm_wday t).
Proof.
  intros Hfit Hm.
  destruct (frameFits_bounds _ _ Hfit) as (Hoff & Hlen & Hmax).
  rewrite (decodeField_frame off t pa 42 3 (bin2Bcd (tm_wday t)))
    by (try apply frameSlot_wday; lia).
  rewrite bin2Bcd_packed by lia.
  pose proof (packedBcd_bound (tm_wday t) 6 ltac:(lia) ltac:(lia)) as B.
  change (packedBcd 6 + 9) with 15 in B.
  assert (packedBcd (tm_wday t) = tm_wday t) as E.
  { unfold packedBcd. rewrite Z.div_small, Z.mod_small by lia. lia. }
  rewrite E. rewrite Z.mod_small by (change (2 ^ Z.of_nat 3) with 8; lia).
  rewrite <- E at 1. rewrite bcdDecode_packed by lia. reflexivity.
Qed.

(** * The pulse emitter *)

(** One tick of an active emitter, field by field. *)
Lemma dcfOut_active pa pc sub lc off log clk :
  0 <= sub <= 9 -> 0 <= pc <= 182 ->
  let code := default 0 (slot pa pc) in
  dcfOut (mkState pa pc 1 sub lc off log clk) =
    mkState pa
      (if sub =? 9 then (if pc =? 182 then 0 else pc + 1) else pc)
      (if (sub =? 9) && (pc =? 182) then 0 else 1)
      (if sub =? 9 then 0 else sub + 1)
      lc off
      (if sub =? 0 then (if code =? 0 then log else 0 :: log)
       else if sub =? 1 then (if code =? 1 then 1 :: log else log)
       else if sub =? 2 then 1 :: log
       else log)
      clk.
Proof.
  intros Hsub Hpc code. unfold dcfOut.
  cbn [dcfOutputOn partialpulseCount pulseCount set_partialpulseCount
       set_pulseCount set_dcfOutputOn digitalWrite pulseArray lastCheck
       timeCorrectionOffset pinLog clock_ms].
  change (1 =? 1) with true. cbv iota.
  unfold currentPulse.
  cbn [dcfOutputOn partialpulseCount pulseCount set_partialpulseCount
       set_pulseCount set_dcfOutputOn digitalWrite pulseArray lastCheck
       timeCorrectionOffset pinLog clock_ms].
  fold code. unfold MaxPulseNumber. change (183 - 1) with 182.
  rewrite (int_add_small sub 1), (int_add_small pc 1) by int_small.
  destruct (Z.eqb_spec sub 0); [subst; destruct (code =? 0); reflexivity|].
  destruct (Z.eqb_spec sub 1); [subst; destruct (code =? 1); reflexivity|].
  destruct (Z.eqb_spec sub 2); [subst; reflexivity|].
  destruct (Z.eqb_spec sub 9); [subst|reflexivity].
  destruct (pc =? 182); reflexivity.
Qed.

(** An idle emitter does nothing. *)
Lemma dcfOut_idle st : dcfOutputOn st <> 1 -> dcfOut st = st.
Proof.
  intros H. unfold dcfOut. destruct (Z.eqb_spec (dcfOutputOn st) 1); tauto.
Qed.

Lemma frameSlot_code t k :
  frameSlot t k = PulseNone \/ frameSlot t k = PulseShort
  \/ frameSlot t k = PulseLong.
Proof.
  assert (Hb : forall v i, bitAt v i + 1 = PulseShort \/ bitAt v i + 1 = PulseLong).
  { intros v i. unfold PulseShort, PulseLong. destruct (bitAt_cases v i); lia. }
  assert (Hp : forall p, parityCode p = PulseShort \/ parityCode p = PulseLong).
  { intros p. unfold parityCode. destruct (_ =? _); auto. }
  unfold frameSlot.
  repeat match goal with
    | |- context [if ?c then _ else _] => destruct c
    end; auto.
Qed.

Lemma telegramOk_calculateArray off t pa :
  off = FirstMinutePulseBegin \/ off = SecondMinutePulseBegin
  \/ off = ThirdMinutePulseBegin ->
  telegramOk pa -> telegramOk (calculateArray off t pa).
Proof.
  unfold FirstMinutePulseBegin, SecondMinutePulseBegin, ThirdMinutePulseBegin.
  intros Hoff (Hlen & H0 & H1 & H182 & Hcodes).
  assert (Hb : 0 <= off /\ off + 60 <= Z.of_nat (length pa)
               /\ Z.of_nat (length pa) <= 2 ^ 30).
  { rewrite Hlen. unfold MaxPulseNumber. change (2 ^ 30) with 1073741824. lia. }
  destruct Hb as (B1 & B2 & B3).
  unfold telegramOk. rewrite calculateArray_length.
  rewrite !slot_calculateArray_out by (unfold MaxPulseNumber; lia).
  repeat split; try assumption.
  intros j v Hj.
  destruct (Z.lt_ge_cases j off) as [Hlt|Hge];
    [rewrite slot_calculateArray_out in Hj by lia; eauto|].
  destruct (Z.lt_ge_cases j (off + 60)) as [Hin|Hout];
    [|rewrite slot_calculateArray_out in Hj by lia; eauto].
  replace j with (off + (j - off)) in Hj by lia.
  rewrite slot_calculateArray_in in Hj by lia.
  injection Hj as <-. apply frameSlot_code.
Qed.

Lemma telegramOk_composeFrames t pa :
  telegramOk pa -> telegramOk (composeFrames t pa).
Proof.
  intros H. unfold composeFrames.
  repeat apply telegramOk_calculateArray; auto.
Qed.

Lemma telegramOk_setup offset :
  telegramOk (pulseArray (setupDcf (bootState offset))).
Proof.
  cbn. unfold telegramOk. repeat split.
  intros j v. unfold slot. destruct (Z.leb_spec 0 j); [|discriminate].
  intros Hv. apply list_elem_of_lookup_2, list_elem_of_In in Hv.
  assert (Hall : forallb (fun v => (0 <=? v) && (v <=? 2))
                   (pulseArray (setupDcf (bootState offset))) = true)
    by (vm_compute; reflexivity).
  rewrite forallb_forall in Hall. apply Hall in Hv.
  unfold PulseNone, PulseShort, PulseLong. lia.
Qed.

(** The tick handler never writes the buffer, the clock or the
    configuration. *)
Lemma dcfOut_frame st :
  pulseArray (dcfOut st) = pulseArray st
  /\ clock_ms (dcfOut st) = clock_ms st
  /\ lastCheck (dcfOut st) = lastCheck st
  /\ timeCorrectionOffset (dcfOut st) = timeCorrectionOffset st.
Proof.
  unfold dcfOut.
  repeat match goal with
    | |- context [if ?c then _ else _] => destruct c
    end; repeat split.
Qed.

Lemma emitterOk_dcfOut st : emitterOk st -> emitterOk (dcfOut st).
Proof.
  unfold emitterOk, MaxPulseNumber. intros (Hpc & Hsub & Hon & Hidle).
  destruct Hon as [Hon|Hon]; [rewrite dcfOut_idle by lia; tauto|].
  destruct st as [pa pc on sub lc off log clk]. cbn in *. subst on.
  rewrite dcfOut_active by lia. cbn.
  destruct (Z.eqb_spec sub 9), (Z.eqb_spec pc 182); cbn; lia.
Qed.

Lemma step_inv st st' :
  step st st' ->
  telegramOk (pulseArray st) /\ emitterOk st ->
  telegramOk (pulseArray st') /\ emitterOk st'.
Proof.
  intros Hstep [Ht He]. destruct Hstep.
  - destruct (dcfOut_frame st) as (-> & _). split; [assumption|].
    apply emitterOk_dcfOut, He.
  - split; [apply telegramOk_composeFrames, Ht | exact He].
  - split; [exact Ht|]. unfold emitterOk in *. cbn. lia.
  - split; [exact Ht | exact He].
  - split; [exact Ht | exact He].
Qed.

Lemma reachable_inv st :
  reachable st -> telegramOk (pulseArray st) /\ emitterOk st.
Proof.
  induction 1 as [offset | st st' _ IH Hstep].
  - split; [apply telegramOk_setup|].
    unfold emitterOk, MaxPulseNumber. cbn. lia.
  - eapply step_inv; eassumption.
Qed.

(** The first nine ticks of a slot leave the slot index alone. *)
Lemma iter_dcfOut_slot pa pc lc off log clk (k : nat) :
  0 <= pc <= 182 -> (k <= 9)%nat ->
  Nat.iter k dcfOut (mkState pa pc 1 0 lc off log clk) =
    mkState pa pc 1 (Z.of_nat k) lc off
      (slotLog (default 0 (slot pa pc)) log k) clk.
Proof.
  intros Hpc. induction k as [|k IH]; intros Hk; [reflexivity|].
  rewrite Nat.iter_succ, IH by lia. rewrite dcfOut_active by lia.
  cbv zeta. cbn [slotLog].
  destruct (Z.eqb_spec (Z.of_nat k) 9); [lia|]. cbn [andb].
  f_equal. lia.
Qed.

(** The tenth tick advances to the next slot, or ends the transmission
    after the last one. *)
Lemma iter_dcfOut_slot_end pa pc lc off log clk :
  0 <= pc <= 182 ->
  Nat.iter 10 dcfOut (mkState pa pc 1 0 lc off log clk) =
    mkState pa (if pc =? 182 then 0 else pc + 1)
      (if pc =? 182 then 0 else 1) 0 lc off
      (slotLog (default 0 (slot pa pc)) log 9) clk.
Proof.
  intros Hpc. change 10%nat with (S 9). rewrite Nat.iter_succ.
  rewrite (iter_dcfOut_slot pa pc lc off log clk 9) by lia.
  rewrite dcfOut_active by lia. reflexivity.
Qed.

(** C8. From every reachable state in which the transmission is active
    and a slot begins (sub-tick 0), the ten ticks of the slot drive the
    line as follows: a Long slot is low after ticks 0 and 1 and high from
    tick 2 on; a Short slot is low after tick 0 and high from tick 1 on;
    during a None slot the line is never written low; the slot index and
    the active flag stay put for the first nine ticks, and the tenth tick
    (sub-tick 9) advances the index, clearing the flag and resetting the
    index to 0 exactly when the slot was the last one, 182. *)
Theorem slot_pulse_shape st :
  reachable st -> dcfOutputOn st = 1 -> partialpulseCount st = 0 ->
  let code := currentPulse st in
  let after k := Nat.iter k dcfOut st in
  (code = PulseNone \/ code = PulseShort \/ code = PulseLong)
  /\ (code = PulseLong ->
        pinLevel (after 1%nat) = 0 /\ pinLevel (after 2%nat) = 0
        /\ forall k, (3 <= k <= 10)%nat -> pinLevel (after k) = 1)
  /\ (code = PulseShort ->
        pinLevel (after 1%nat) = 0
        /\ forall k, (2 <= k <= 10)%nat -> pinLevel (after k) = 1)
  /\ (code = PulseNone ->
        forall k, (k <= 10)%nat ->
          exists w, pinLog (after k) = w ++ pinLog st /\ ~ In 0 w)
  /\ (forall k, (k < 10)%nat ->
        pulseCount (after k) = pulseCount st
        /\ dcfOutputOn (after k) = 1
        /\ partialpulseCount (after k) = Z.of_nat k)
  /\ partialpulseCount (after 10%nat) = 0
  /\ (pulseCount st = MaxPulseNumber - 1 ->
        pulseCount (after 10%nat) = 0 /\ dcfOutputOn (after 10%nat) = 0)
  /\ (pulseCount st <> MaxPulseNumber - 1 ->
        pulseCount (after 10%nat) = pulseCount st + 1
        /\ dcfOutputOn (after 10%nat) = 1).
Proof.
  intros Hreach Hon Hsub code after.
  destruct (reachable_inv st Hreach) as [Htel Hem].
  destruct Htel as (Hlen & _ & _ & _ & Hcodes).
  destruct Hem as (Hpc & _).
  unfold MaxPulseNumber in *. change (183 - 1) with 182 in *.
  destruct st as [pa pc on sub lc off log clk]. cbn in Hon, Hsub, Hpc, Hlen, Hcodes.
  subst on sub. unfold currentPulse in code. cbn in code.
  assert (Hshape : forall k : nat, (k <= 10)%nat ->
            pinLog (after k) = slotLog code log (Nat.min k 9)).
  { intros k Hk. subst after. cbv beta.
    destruct (Nat.eq_dec k 10%nat) as [->|Hne].
    - rewrite iter_dcfOut_slot_end by lia. reflexivity.
    - rewrite iter_dcfOut_slot by lia. rewrite Nat.min_l by lia. reflexivity. }
  assert (Hlevel : forall k : nat, (k <= 10)%nat ->
            pinLevel (after k) = hd 0 (slotLog code log (Nat.min k 9))).
  { intros k Hk. unfold pinLevel. rewrite Hshape by lia. reflexivity. }
  assert (Hcode : code = PulseNone \/ code = PulseShort \/ code = PulseLong).
  { destruct (slot_in_bounds pa pc) as [v Hv]; [lia|].
    subst code. rewrite Hv. cbn. eapply Hcodes, Hv. }
  split; [exact Hcode|].
  split; [|split; [|split; [|split; [|split; [|split]]]]].
  - intros E. rewrite !Hlevel by lia. rewrite E.
    split; [reflexivity|]. split; [reflexivity|].
    intros k Hk. rewrite Hlevel by lia. rewrite E.
    do 11 (destruct k as [|k]; [first [lia | reflexivity]|]). lia.
  - intros E. rewrite !Hlevel by lia. rewrite E.
    split; [reflexivity|].
    intros k Hk. rewrite Hlevel by lia. rewrite E.
    do 11 (destruct k as [|k]; [first [lia | reflexivity]|]). lia.
  - intros E k Hk. rewrite Hshape by lia. rewrite E. cbn [pinLog].
    do 11 (destruct k as [|k];
      [first [ exists []; split; [reflexivity | cbn; tauto]
             | exists [1]; split; [reflexivity | cbn; lia] ]|]).
    lia.
  - intros k Hk. subst after. cbv beta.
    rewrite iter_dcfOut_slot by lia. cbn. tauto.
  - subst after. cbv beta. rewrite iter_dcfOut_slot_end by lia. reflexivity.
  - cbn [pulseCount]. intros ->. subst after. cbv beta.
    rewrite iter_dcfOut_slot_end by lia. cbn. tauto.
  - cbn [pulseCount]. intros Hne. subst after. cbv beta.
    rewrite iter_dcfOut_slot_end by lia. cbn.
    destruct (Z.eqb_spec pc 182); [contradiction|]. tauto.
Qed.

(** * The C library model: normalisation facts *)

Lemma days_in_month_bounds year mon :
  28 <= Libc.days_in_month year mon <= 31.
Proof.
  unfold Libc.days_in_month.
  repeat match goal with
    | |- context [if ?c then _ else _] => destruct c
    end; lia.
Qed.

Lemma carry_in v base : 0 <= v <= base - 1 -> Libc.carry v base = (0, v).
Proof.
  intros H. unfold Libc.carry.
  destruct (Z.ltb_spec v 0); [lia|].
  destruct (Z.ltb_spec (base - 1) v); [lia|]. reflexivity.
Qed.

Lemma carry_range v base :
  0 < base -> 0 <= snd (Libc.carry v base) <= base - 1.
Proof.
  intros Hb. unfold Libc.carry.
  destruct (Z.ltb_spec v 0) as [Hneg|Hpos]; cbn [orb].
  - pose proof (Z.rem_bound_pos_neg v base ltac:(lia) ltac:(lia)).
    destruct (Z.ltb_spec (Z.rem v base) 0); cbn [snd]; lia.
  - destruct (Z.ltb_spec (base - 1) v); cbn [snd]; [|lia].
    pose proof (Z.rem_bound_pos v base ltac:(lia) ltac:(lia)).
    destruct (Z.ltb_spec (Z.rem v base) 0); cbn [snd]; lia.
Qed.

Lemma mday_forward_valid fuel mday mon year :
  0 <= mon <= 11 -> 1 <= mday <= Z.of_nat fuel ->
  dateValid (Libc.mday_forward fuel mday mon year).
Proof.
  revert mday mon year. induction fuel as [|f IH]; intros mday mon year Hmon Hd;
    [lia|].
  cbn [Libc.mday_forward].
  pose proof (days_in_month_bounds year mon).
  destruct (Z.ltb_spec (Libc.days_in_month year mon) mday).
  - destruct (Z.eqb_spec (mon + 1) 12); apply IH; lia.
  - cbn. lia.
Qed.

Lemma mday_backward_valid fuel mday mon year :
  0 <= mon <= 11 -> mday <= Libc.days_in_month year mon ->
  1 - mday <= Z.of_nat fuel -> (fuel = O -> 0 < mday) ->
  dateValid (Libc.mday_backward fuel mday mon year).
Proof.
  revert mday mon year. induction fuel as [|f IH];
    intros mday mon year Hmon Hd Hf H0.
  - cbn. specialize (H0 eq_refl). lia.
  - cbn [Libc.mday_backward].
    destruct (Z.leb_spec mday 0); [|cbn; lia].
    destruct (Z.eqb_spec (mon - 1) (-1)).
    + pose proof (days_in_month_bounds (year - 1) 11).
      apply IH; lia.
    + pose proof (days_in_month_bounds year (mon - 1)).
      apply IH; lia.
Qed.

Lemma normalize_mday_valid mday mon year :
  0 <= mon <= 11 -> dateValid (Libc.normalize_mday mday mon year).
Proof.
  intros Hmon. unfold Libc.normalize_mday.
  pose proof (days_in_month_bounds year mon).
  destruct (Z.leb_spec mday 0).
  - apply mday_backward_valid; lia.
  - apply mday_forward_valid; lia.
Qed.

(** [mktime] always returns a time whose fields are in range. *)
Lemma mktime_valid t : calendarValid (Libc.mktime t).
Proof.
  unfold Libc.mktime.
  pose proof (carry_range (tm_sec t) 60 ltac:(lia)) as Hs.
  destruct (Libc.carry (tm_sec t) 60) as [cmin sec]. cbn [snd] in Hs.
  pose proof (carry_range (tm_min t + cmin) 60 ltac:(lia)) as Hm.
  destruct (Libc.carry (tm_min t + cmin) 60) as [chour min]. cbn [snd] in Hm.
  pose proof (carry_range (tm_hour t + chour) 24 ltac:(lia)) as Hh.
  destruct (Libc.carry (tm_hour t + chour) 24) as [cday hour]. cbn [snd] in Hh.
  pose proof (carry_range (tm_mon t) 12 ltac:(lia)) as Hmo.
  destruct (Libc.carry (tm_mon t) 12) as [cyear mon]. cbn [snd] in Hmo.
  pose proof (normalize_mday_valid (tm_mday t + cday) mon (tm_year t + cyear)
                ltac:(lia)) as Hd.
  destruct (Libc.normalize_mday (tm_mday t + cday) mon (tm_year t + cyear))
    as [[mday mon'] year].
  unfold calendarValid, dateValid in *. cbn. lia.
Qed.

Lemma mday_forward_in fuel mday mon year :
  mday <= Libc.days_in_month year mon ->
  Libc.mday_forward fuel mday mon year = (mday, mon, year).
Proof.
  intros H. destruct fuel as [|f]; [reflexivity|]. cbn [Libc.mday_forward].
  destruct (Z.ltb_spec (Libc.days_in_month year mon) mday); [lia|reflexivity].
Qed.

(** Adding a minute to a valid time gives the next calendar minute. *)
Lemma addMinute_succ t :
  calendarValid t -> calendarSucc t (addMinute t).
Proof.
  intros (Hs & Hm & Hh & Hmo & Hd). unfold addMinute, Libc.mktime.
  cbn [tm_sec tm_min tm_hour tm_mday tm_mon tm_year tm_isdst set_tm_min].
  rewrite int_add_small by int_small.
  rewrite (carry_in (tm_sec t)) by lia. rewrite Z.add_0_r.
  rewrite (carry_in (tm_mon t)) by lia. rewrite Z.add_0_r.
  pose proof (days_in_month_bounds (tm_year t) (tm_mon t)) as Hdim.
  unfold calendarSucc.
  destruct (Z.ltb_spec (tm_min t) 59) as [Hlt|Hge].
  - rewrite (carry_in (tm_min t + 1)) by lia. rewrite Z.add_0_r.
    rewrite (carry_in (tm_hour t)) by lia. rewrite Z.add_0_r.
    unfold Libc.normalize_mday.
    destruct (Z.leb_spec (tm_mday t) 0); [lia|].
    rewrite mday_forward_in by lia. cbn. lia.
  - replace (tm_min t + 1) with 60 by lia.
    change (Libc.carry 60 60) with (1, 0).
    destruct (Z.ltb_spec (tm_hour t) 23) as [Hhlt|Hhge].
    + rewrite (carry_in (tm_hour t + 1)) by lia. rewrite Z.add_0_r.
      unfold Libc.normalize_mday.
      destruct (Z.leb_spec (tm_mday t) 0); [lia|].
      rewrite mday_forward_in by lia. cbn. lia.
    + replace (tm_hour t + 1) with 24 by lia.
      change (Libc.carry 24 24) with (1, 0).
      unfold Libc.normalize_mday.
      destruct (Z.leb_spec (tm_mday t + 1) 0); [lia|].
      destruct (Z.ltb_spec (tm_mday t) (Libc.days_in_month (tm_year t) (tm_mon t)))
        as [Hdlt|Hdge].
      * rewrite mday_forward_in by lia. cbn. lia.
      * destruct (Z.to_nat (tm_mday t + 1)) as [|f] eqn:Ef; [lia|].
        cbn [Libc.mday_forward].
        destruct (Z.ltb_spec (Libc.days_in_month (tm_year t) (tm_mon t))
                    (tm_mday t + 1)); [|lia].
        replace (tm_mday t + 1 - Libc.days_in_month (tm_year t) (tm_mon t))
          with 1 by lia.
        destruct (Z.ltb_spec (tm_mon t) 11) as [Hmlt|Hmge].
        -- destruct (Z.eqb_spec (tm_mon t + 1) 12); [lia|].
           pose proof (days_in_month_bounds (tm_year t) (tm_mon t + 1)).
           rewrite mday_forward_in by lia. cbn. lia.
        -- destruct (Z.eqb_spec (tm_mon t + 1) 12); [|lia].
           pose proof (days_in_month_bounds (tm_year t + 1) 0).
           rewrite mday_forward_in by lia. cbn. lia.
Qed.

Lemma addMinute_valid t : calendarValid (addMinute t).
Proof. apply mktime_valid. Qed.

Lemma correctedTime_valid now st : calendarValid (correctedTime now st).
Proof. apply mktime_valid. Qed.

(** * The telegram composer *)

Lemma iter_dcfOut_frame n st :
  pulseArray (Nat.iter n dcfOut st) = pulseArray st
  /\ clock_ms (Nat.iter n dcfOut st) = clock_ms st
  /\ lastCheck (Nat.iter n dcfOut st) = lastCheck st
  /\ timeCorrectionOffset (Nat.iter n dcfOut st) = timeCorrectionOffset st.
Proof.
  induction n as [|n IH]; [repeat split|].
  rewrite Nat.iter_succ.
  destruct (dcfOut_frame (Nat.iter n dcfOut st)) as (-> & -> & -> & ->).
  exact IH.
Qed.

(** A delay runs ticks only: the buffer stays, the clock advances. *)
Lemma delay_frame ms st :
  pulseArray (delay ms st) = pulseArray st
  /\ clock_ms (delay ms st) = clock_ms st + ms
  /\ lastCheck (delay ms st) = lastCheck st.
Proof.
  unfold delay.
  destruct (iter_dcfOut_frame (ticksDuring (clock_ms st) ms)
              (set_clock_ms (clock_ms st + ms) st)) as (-> & -> & -> & _).
  repeat split.
Qed.

(** A skipped cycle only moves [lastCheck]. *)
Lemma readAndDecodeTime_skip now st :
  56 < tm_sec (correctedTime now st) ->
  readAndDecodeTime now st =
    set_lastCheck (Int.ulong_wrap (lastCheck st + 30000)) st.
Proof.
  intros H. unfold readAndDecodeTime. cbv zeta.
  destruct (Z.ltb_spec 56 (tm_sec (correctedTime now st))); [reflexivity|lia].
Qed.

(** A composed cycle: build the three frames, wait, switch the output on,
    wait for the transmission body. *)
Lemma readAndDecodeTime_run now st :
  tm_sec (correctedTime now st) <= 56 ->
  let t := correctedTime now st in
  readAndDecodeTime now st =
    delay 150000
      (set_dcfOutputOn 1
         (delay (Int.mul (Int.sub 58 (tm_sec (addMinute (addMinute t)))) 1000)
            (set_pulseArray (composeFrames t (pulseArray st)) st))).
Proof.
  intros H t. subst t. unfold readAndDecodeTime. cbv zeta.
  destruct (Z.ltb_spec 56 (tm_sec (correctedTime now st))); [lia|].
  unfold composeFrames, set_pulseArray.
  cbn [pulseArray pulseCount dcfOutputOn partialpulseCount lastCheck
       timeCorrectionOffset pinLog clock_ms].
  reflexivity.
Qed.

(** Adding a minute keeps the seconds. *)
Lemma addMinute_sec t : 0 <= tm_sec t <= 59 -> tm_sec (addMinute t) = tm_sec t.
Proof.
  intros H. unfold addMinute, Libc.mktime.
  cbn [tm_sec tm_min tm_hour tm_mday tm_mon tm_year tm_isdst set_tm_min].
  rewrite (carry_in (tm_sec t)) by lia.
  repeat match goal with
    | |- context [let '(_, _) := ?e in _] => destruct e
    end.
  reflexivity.
Qed.

Lemma slot_composeFrames_header t pa j :
  length pa = Z.to_nat MaxPulseNumber ->
  j < FirstMinutePulseBegin \/ ThirdMinutePulseBegin + 60 <= j ->
  slot (composeFrames t pa) j = slot pa j.
Proof.
  unfold MaxPulseNumber, FirstMinutePulseBegin, ThirdMinutePulseBegin.
  intros Hlen Hj. unfold composeFrames.
  unfold FirstMinutePulseBegin, SecondMinutePulseBegin, ThirdMinutePulseBegin.
  rewrite (slot_calculateArray_out 122), (slot_calculateArray_out 62),
    (slot_calculateArray_out 2)
    by (rewrite ?calculateArray_length, ?Hlen;
        change (2 ^ 30) with 1073741824; lia).
  reflexivity.
Qed.

(** Which frame a slot of the composed telegram comes from. *)
Lemma slot_composeFrames_frame t pa k :
  length pa = Z.to_nat MaxPulseNumber ->
  0 <= k < 60 ->
  slot (composeFrames t pa) (FirstMinutePulseBegin + k) = Some (frameSlot t k)
  /\ slot (composeFrames t pa) (SecondMinutePulseBegin + k) =
       Some (frameSlot (addMinute t) k)
  /\ slot (composeFrames t pa) (ThirdMinutePulseBegin + k) =
       Some (frameSlot (addMinute (addMinute t)) k).
Proof.
  unfold MaxPulseNumber. intros Hlen Hk. unfold composeFrames.
  unfold FirstMinutePulseBegin, SecondMinutePulseBegin, ThirdMinutePulseBegin.
  repeat split.
  - rewrite (slot_calculateArray_out 122), (slot_calculateArray_out 62)
      by (rewrite ?calculateArray_length, ?Hlen;
          change (2 ^ 30) with 1073741824; lia).
    apply slot_calculateArray_in;
      rewrite ?Hlen; change (2 ^ 30) with 1073741824; lia.
  - rewrite (slot_calculateArray_out 122)
      by (rewrite ?calculateArray_length, ?Hlen;
          change (2 ^ 30) with 1073741824; lia).
    apply slot_calculateArray_in;
      rewrite ?calculateArray_length, ?Hlen;
      change (2 ^ 30) with 1073741824; lia.
  - apply slot_calculateArray_in;
      rewrite ?calculateArray_length, ?Hlen;
      change (2 ^ 30) with 1073741824; lia.
Qed.

(** The buffer after a call of [readAndDecodeTime]. *)
Lemma readAndDecodeTime_buffer now st :
  pulseArray (readAndDecodeTime now st) =
    if 56 <? tm_sec (correctedTime now st) then pulseArray st
    else composeFrames (correctedTime now st) (pulseArray st).
Proof.
  destruct (Z.ltb_spec 56 (tm_sec (correctedTime now st))).
  - rewrite readAndDecodeTime_skip by lia. reflexivity.
  - rewrite readAndDecodeTime_run by lia. cbv zeta.
    destruct (delay_frame 150000
      (set_dcfOutputOn 1
         (delay (Int.mul (Int.sub 58
                    (tm_sec (addMinute (addMinute (correctedTime now st)))))
                   1000)
            (set_pulseArray
               (composeFrames (correctedTime now st) (pulseArray st)) st))))
      as (-> & _).
    cbn [pulseArray set_dcfOutputOn].
    destruct (delay_frame
      (Int.mul (Int.sub 58
                  (tm_sec (addMinute (addMinute (correctedTime now st))))) 1000)
      (set_pulseArray (composeFrames (correctedTime now st) (pulseArray st)) st))
      as (-> & _).
    reflexivity.
Qed.

(** Every state the program passes through is reachable: ticks, delays
    and whole calls of [readAndDecodeTime] stay inside [reachable]. *)
Lemma reachable_ticks n st : reachable st -> reachable (Nat.iter n dcfOut st).
Proof.
  intros H. induction n as [|n IH]; [exact H|].
  rewrite Nat.iter_succ. eapply reach_step; [exact IH | apply step_tick].
Qed.

Lemma reachable_delay ms st : reachable st -> reachable (delay ms st).
Proof.
  intros H. unfold delay. apply reachable_ticks.
  eapply reach_step; [exact H | apply step_clock].
Qed.

Lemma reachable_readAndDecodeTime now st :
  reachable st -> reachable (readAndDecodeTime now st).
Proof.
  intros H. destruct (Z.lt_ge_cases 56 (tm_sec (correctedTime now st))).
  - rewrite readAndDecodeTime_skip by lia.
    eapply reach_step; [exact H | apply step_lastCheck].
  - rewrite readAndDecodeTime_run by lia. cbv zeta.
    apply reachable_delay.
    eapply reach_step; [|apply step_activate].
    apply reachable_delay.
    eapply reach_step; [exact H | apply step_frames].
Qed.

(** A field whose pulses carry the bits of [bin2Bcd m] decodes to [m],
    as long as the packed digits fit the field. *)
Lemma decodeField_digits pa start width m hi :
  0 <= m <= hi -> hi < 100 -> packedBcd hi + 9 < 2 ^ Z.of_nat width ->
  (forall i, 0 <= i < Z.of_nat width ->
     slot pa (start + i) = Some (bitAt (bin2Bcd m) i + 1)) ->
  decodeField pa start width = Some m.
Proof.
  intros Hm Hhi Hfit H. unfold decodeField.
  rewrite (fieldBits_lowBits pa start width (bin2Bcd m) H).
  cbn [fmap option_fmap option_map]. rewrite bitsValue_lowBits.
  rewrite bin2Bcd_packed by lia.
  pose proof (packedBcd_bound m hi Hm Hhi).
  rewrite Z.mod_small by lia. rewrite bcdDecode_packed by lia. reflexivity.
Qed.

(** A buffer slice that holds the frame of a valid time decodes to it. *)
Lemma decoded_frame pa off t :
  (forall k, 0 <= k < 60 -> slot pa (off + k) = Some (frameSlot t k)) ->
  calendarValid t ->
  decodedMinute pa off = Some (tm_min t)
  /\ decodedHour pa off = Some (tm_hour t)
  /\ decodedDay pa off = Some (tm_mday t)
  /\ decodedMonthField pa off = Some (tm_mon t)
  /\ fieldBits pa (off + 50) 8 =
       Some (lowBits 8 (bin2Bcd (Int.sub (tm_year t) 2000))).
Proof.
  intros H (Hs & Hm & Hh & Hmo & Hd).
  pose proof (days_in_month_bounds (tm_year t) (tm_mon t)).
  unfold decodedMinute, decodedHour, decodedDay, decodedMonthField.
  repeat split.
  - apply (decodeField_digits _ _ 7 _ 59); [lia|lia|reflexivity|].
    intros i Hi. rewrite <- Z.add_assoc, H by lia.
    rewrite frameSlot_minute by lia. reflexivity.
  - apply (decodeField_digits _ _ 6 _ 23); [lia|lia|reflexivity|].
    intros i Hi. rewrite <- Z.add_assoc, H by lia.
    rewrite frameSlot_hour by lia. reflexivity.
  - apply (decodeField_digits _ _ 6 _ 31); [lia|lia|reflexivity|].
    intros i Hi. rewrite <- Z.add_assoc, H by lia.
    rewrite frameSlot_mday by lia. reflexivity.
  - apply (decodeField_digits _ _ 5 _ 11); [lia|lia|reflexivity|].
    intros i Hi. rewrite <- Z.add_assoc, H by lia.
    rewrite frameSlot_mon by lia. reflexivity.
  - apply fieldBits_lowBits. intros i Hi.
    rewrite <- Z.add_assoc, H by lia.
    rewrite frameSlot_year by lia. reflexivity.
Qed.

(** The library model counts the days of a month as the Gregorian
    calendar does. *)
Lemma days_in_month_civil year mon :
  0 <= mon <= 11 ->
  Libc.days_in_month year mon = civilDaysInMonth (year + 1900) (mon + 1).
Proof.
  intros Hmon.
  assert (Hleap : Libc.isleap year = gregorianLeap (year + 1900)).
  { unfold Libc.isleap, gregorianLeap.
    assert (H4 : (Z.rem year 4 =? 0) = ((year + 1900) mod 4 =? 0)).
    { replace (year + 1900) with (year + 475 * 4) by lia.
      rewrite Z.mod_add by lia.
      destruct (Z.eqb_spec (Z.rem year 4) 0) as [E|E],
               (Z.eqb_spec (year mod 4) 0) as [E'|E']; try reflexivity;
        exfalso.
      - apply E'. apply Z.rem_divide in E; [|lia]. apply Z.mod_divide; [lia|].
        exact E.
      - apply E. apply Z.mod_divide in E'; [|lia]. apply Z.rem_divide; [lia|].
        exact E'. }
    assert (H100 : (Z.rem year 100 =? 0) = ((year + 1900) mod 100 =? 0)).
    { replace (year + 1900) with (year + 19 * 100) by lia.
      rewrite Z.mod_add by lia.
      destruct (Z.eqb_spec (Z.rem year 100) 0) as [E|E],
               (Z.eqb_spec (year mod 100) 0) as [E'|E']; try reflexivity;
        exfalso.
      - apply E'. apply Z.rem_divide in E; [|lia]. apply Z.mod_divide; [lia|].
        exact E.
      - apply E. apply Z.mod_divide in E'; [|lia]. apply Z.rem_divide; [lia|].
        exact E'. }
    assert (H400 : (Z.rem (year + 1900) 400 =? 0)
                   = ((year + 1900) mod 400 =? 0)).
    { destruct (Z.eqb_spec (Z.rem (year + 1900) 400) 0) as [E|E],
               (Z.eqb_spec ((year + 1900) mod 400) 0) as [E'|E'];
        try reflexivity; exfalso.
      - apply E'. apply Z.rem_divide in E; [|lia]. apply Z.mod_divide; [lia|].
        exact E.
      - apply E. apply Z.mod_divide in E'; [|lia]. apply Z.rem_divide; [lia|].
        exact E'. }
    rewrite H4, H100, H400. reflexivity. }
  unfold Libc.days_in_month, civilDaysInMonth. rewrite Hleap.
  assert (Hcases : mon = 0 \/ mon = 1 \/ mon = 2 \/ mon = 3 \/ mon = 4
                   \/ mon = 5 \/ mon = 6 \/ mon = 7 \/ mon = 8 \/ mon = 9
                   \/ mon = 10 \/ mon = 11) by lia.
  repeat (destruct Hcases as [-> | Hcases]; [reflexivity|]).
  subst mon. reflexivity.
Qed.

(** The model's successor minute is the civil one. *)
Lemma calendarSucc_civil t t' :
  calendarValid t -> calendarSucc t t' -> civilSucc t t'.
Proof.
  intros (_ & _ & _ & Hmon & _) (Hs & _ & H).
  unfold civilSucc, calendar_month, calendar_year.
  rewrite <- days_in_month_civil by exact Hmon.
  split; [exact Hs|].
  destruct (tm_min t <? 59); [lia|].
  destruct H as [Hm H]. split; [exact Hm|].
  destruct (tm_hour t <? 23); [lia|].
  destruct H as [Hh H]. split; [exact Hh|].
  destruct (tm_mday t <? Libc.days_in_month (tm_year t) (tm_mon t)); [lia|].
  destruct H as [Hd H]. split; [exact Hd|].
  destruct (Z.ltb_spec (tm_mon t) 11), (Z.ltb_spec (tm_mon t + 1) 12); lia.
Qed.

Lemma calendarValid_same a b :
  sameCivilTime a b -> calendarValid b -> calendarValid a.
Proof.
  unfold sameCivilTime, calendarValid.
  intros (-> & -> & -> & -> & -> & ->). tauto.
Qed.

Lemma civilSucc_same t a b :
  sameCivilTime a b -> civilSucc t b -> civilSucc t a.
Proof.
  unfold sameCivilTime, civilSucc, calendar_month, calendar_year.
  intros (-> & -> & -> & -> & -> & ->). tauto.
Qed.

(** The buffer after a composed cycle, whatever [mktime] returns. *)
Lemma readAndDecodeTimeWith_buffer mk now st :
  tm_sec (correctedTimeWith mk now st) <= 56 ->
  pulseArray (readAndDecodeTimeWith mk now st) =
    calculateArray ThirdMinutePulseBegin
      (addMinuteWith mk (addMinuteWith mk (correctedTimeWith mk now st)))
      (calculateArray SecondMinutePulseBegin
         (addMinuteWith mk (correctedTimeWith mk now st))
         (calculateArray FirstMinutePulseBegin (correctedTimeWith mk now st)
            (pulseArray st))).
Proof.
  intros Hs. unfold readAndDecodeTimeWith. cbv zeta.
  destruct (Z.ltb_spec 56 (tm_sec (correctedTimeWith mk now st))); [lia|].
  match goal with
  | |- pulseArray (delay ?a ?x) = _ =>
      destruct (delay_frame a x) as (-> & _)
  end.
  cbn [pulseArray set_dcfOutputOn].
  match goal with
  | |- pulseArray (delay ?a ?x) = _ =>
      destruct (delay_frame a x) as (-> & _)
  end.
  reflexivity.
Qed.

(** [readAndDecodeTime] is the composer at the library model. *)
Lemma readAndDecodeTimeWith_Libc now st :
  readAndDecodeTimeWith Libc.mktime now st = readAndDecodeTime now st.
Proof. reflexivity. Qed.

(** Three frames side by side. *)
Lemma slot_three_frames a b c pa k :
  length pa = Z.to_nat MaxPulseNumber -> 0 <= k < 60 ->
  let pa' := calculateArray ThirdMinutePulseBegin c
               (calculateArray SecondMinutePulseBegin b
                  (calculateArray FirstMinutePulseBegin a pa)) in
  slot pa' (FirstMinutePulseBegin + k) = Some (frameSlot a k)
  /\ slot pa' (SecondMinutePulseBegin + k) = Some (frameSlot b k)
  /\ slot pa' (ThirdMinutePulseBegin + k) = Some (frameSlot c k).
Proof.
  intros Hlen Hk pa'. subst pa'. unfold MaxPulseNumber in Hlen.
  unfold FirstMinutePulseBegin, SecondMinutePulseBegin, ThirdMinutePulseBegin.
  repeat split.
  - rewrite (slot_calculateArray_out 122), (slot_calculateArray_out 62)
      by (rewrite ?calculateArray_length, ?Hlen;
          change (2 ^ 30) with 1073741824; lia).
    apply slot_calculateArray_in;
      rewrite ?Hlen; change (2 ^ 30) with 1073741824; lia.
  - rewrite (slot_calculateArray_out 122)
      by (rewrite ?calculateArray_length, ?Hlen;
          change (2 ^ 30) with 1073741824; lia).
    apply slot_calculateArray_in;
      rewrite ?calculateArray_length, ?Hlen;
      change (2 ^ 30) with 1073741824; lia.
  - apply slot_calculateArray_in;
      rewrite ?calculateArray_length, ?Hlen;
      change (2 ^ 30) with 1073741824; lia.
Qed.

(** C7 (as amended). Take a composed cycle (corrected second at most 56)
    in which each of the three [mktime] calls returns the date and time
    of day that plain field normalisation gives, that is, in which the
    library applies no daylight-saving shift.  Then the three time
    structures handed to [calculateArray] show three consecutive minutes
    of the Gregorian calendar, and the frames at slots 2, 62 and 122
    decode to them in their minute, hour and day fields: the minutes read
    m, (m + 1) mod 60 and (m + 2) mod 60, and hour and day of the month
    read those of the structure, rolled over at 59 minutes, at 23 hours
    and at the last day of the month.  What the month and year fields of
    the frames carry is not part of this statement. *)
Theorem consecutive_civil_minutes mk now st :
  let t1 := correctedTimeWith mk now st in
  let t2 := addMinuteWith mk t1 in
  let t3 := addMinuteWith mk t2 in
  sameCivilTime t1 (correctedTime now st) ->
  sameCivilTime t2 (addMinute t1) ->
  sameCivilTime t3 (addMinute t2) ->
  length (pulseArray st) = Z.to_nat MaxPulseNumber ->
  tm_sec t1 <= 56 ->
  let pa' := pulseArray (readAndDecodeTimeWith mk now st) in
  civilSucc t1 t2 /\ civilSucc t2 t3
  /\ decodedMinute pa' FirstMinutePulseBegin = Some (tm_min t1)
  /\ decodedMinute pa' SecondMinutePulseBegin = Some ((tm_min t1 + 1) mod 60)
  /\ decodedMinute pa' ThirdMinutePulseBegin = Some ((tm_min t1 + 2) mod 60)
  /\ Forall (fun '(off, t) =>
        decodedHour pa' off = Some (tm_hour t)
        /\ decodedDay pa' off = Some (tm_mday t))
       [(FirstMinutePulseBegin, t1); (SecondMinutePulseBegin, t2);
        (ThirdMinutePulseBegin, t3)].
Proof.
  intros t1 t2 t3 A1 A2 A3 Hlen Hs pa'.
  assert (V1 : calendarValid t1)
    by (eapply calendarValid_same; [exact A1 | apply correctedTime_valid]).
  assert (V2 : calendarValid t2)
    by (eapply calendarValid_same; [exact A2 | apply addMinute_valid]).
  assert (V3 : calendarValid t3)
    by (eapply calendarValid_same; [exact A3 | apply addMinute_valid]).
  assert (S12 : civilSucc t1 t2).
  { eapply civilSucc_same; [exact A2|].
    apply calendarSucc_civil; [exact V1 | apply addMinute_succ, V1]. }
  assert (S23 : civilSucc t2 t3).
  { eapply civilSucc_same; [exact A3|].
    apply calendarSucc_civil; [exact V2 | apply addMinute_succ, V2]. }
  assert (Epa : pa' = calculateArray ThirdMinutePulseBegin t3
                        (calculateArray SecondMinutePulseBegin t2
                           (calculateArray FirstMinutePulseBegin t1
                              (pulseArray st))))
    by (apply readAndDecodeTimeWith_buffer; exact Hs).
  assert (F : forall k, 0 <= k < 60 ->
            slot pa' (FirstMinutePulseBegin + k) = Some (frameSlot t1 k)
            /\ slot pa' (SecondMinutePulseBegin + k) = Some (frameSlot t2 k)
            /\ slot pa' (ThirdMinutePulseBegin + k) = Some (frameSlot t3 k)).
  { intros k Hk. rewrite Epa.
    apply (slot_three_frames t1 t2 t3 (pulseArray st) k Hlen Hk). }
  destruct (decoded_frame pa' _ t1 (fun k Hk => proj1 (F k Hk)) V1)
    as (M1 & H1 & D1 & _).
  destruct (decoded_frame pa' _ t2 (fun k Hk => proj1 (proj2 (F k Hk))) V2)
    as (M2 & H2 & D2 & _).
  destruct (decoded_frame pa' _ t3 (fun k Hk => proj2 (proj2 (F k Hk))) V3)
    as (M3 & H3 & D3 & _).
  assert (E2 : tm_min t2 = (tm_min t1 + 1) mod 60).
  { destruct V1 as (_ & Hm & _). destruct S12 as (_ & S).
    destruct (Z.ltb_spec (tm_min t1) 59).
    - rewrite Z.mod_small by lia. tauto.
    - replace (tm_min t1 + 1) with 60 by lia. tauto. }
  assert (E3 : tm_min t3 = (tm_min t1 + 2) mod 60).
  { destruct V2 as (_ & Hm & _). destruct S23 as (_ & S).
    replace (tm_min t1 + 2) with ((tm_min t1 + 1) + 1) by lia.
    rewrite <- Zplus_mod_idemp_l, <- E2.
    destruct (Z.ltb_spec (tm_min t2) 59).
    - rewrite Z.mod_small by lia. tauto.
    - replace (tm_min t2 + 1) with 60 by lia. tauto. }
  rewrite <- E2, <- E3.
  split; [exact S12|]. split; [exact S23|].
  split; [exact M1|]. split; [exact M2|]. split; [exact M3|].
  apply List.Forall_cons; [split; assumption|].
  apply List.Forall_cons; [split; assumption|].
  apply List.Forall_cons; [split; assumption|]. apply List.Forall_nil.
Qed.

(** New Year's Eve 2024, 23:59:30, with the library model as [mktime]:
    the frames read 23:59 on day 31, then 00:00 and 00:01 on day 1. *)
Lemma consecutive_civil_minutes_witness :
  sameCivilTime (correctedTimeWith Libc.mktime newYearsEve freshState)
    (correctedTime newYearsEve freshState)
  /\ length (pulseArray freshState) = Z.to_nat MaxPulseNumber
  /\ tm_sec (correctedTimeWith Libc.mktime newYearsEve freshState) <= 56
  /\ decodedMinute
       (pulseArray (readAndDecodeTimeWith Libc.mktime newYearsEve freshState))
       SecondMinutePulseBegin = Some 0
  /\ decodedMinute
       (pulseArray (readAndDecodeTimeWith Libc.mktime newYearsEve freshState))
       ThirdMinutePulseBegin = Some 1.
Proof.
  assert (A1 : sameCivilTime
                 (correctedTimeWith Libc.mktime newYearsEve freshState)
                 (correctedTime newYearsEve freshState))
    by (repeat split; reflexivity).
  assert (A2 : sameCivilTime
                 (addMinuteWith Libc.mktime
                    (correctedTimeWith Libc.mktime newYearsEve freshState))
                 (addMinute
                    (correctedTimeWith Libc.mktime newYearsEve freshState)))
    by (repeat split; reflexivity).
  assert (A3 : sameCivilTime
                 (addMinuteWith Libc.mktime
                    (addMinuteWith Libc.mktime
                       (correctedTimeWith Libc.mktime newYearsEve freshState)))
                 (addMinute
                    (addMinuteWith Libc.mktime
                       (correctedTimeWith Libc.mktime newYearsEve freshState))))
    by (repeat split; reflexivity).
  assert (Hl : length (pulseArray freshState) = Z.to_nat MaxPulseNumber)
    by reflexivity.
  assert (Hs : tm_sec (correctedTimeWith Libc.mktime newYearsEve freshState)
               <= 56) by (vm_compute; discriminate).
  split; [exact A1|]. split; [exact Hl|]. split; [exact Hs|].
  destruct (consecutive_civil_minutes Libc.mktime newYearsEve freshState
              A1 A2 A3 Hl Hs) as (_ & _ & _ & M2 & M3 & _).
  split; [exact M2 | exact M3].
Defined.

(** C7 fails as stated.  At 23:59:30 on 31 December 2024 the second
    frame is built for 00:00:30 on 1 January 2025, calendar month 1 of
    year 25 in the century, yet its month field decodes to 0 and its
    year field to 113; the first frame reads day 31 of month 11. *)
Lemma new_year_month_and_year_fields :
  let pa' := pulseArray (readAndDecodeTime newYearsEve freshState) in
  let t2 := addMinute (correctedTime newYearsEve freshState) in
  calendar_month t2 = 1 /\ calendar_year t2 mod 100 = 25
  /\ decodedMonthField pa' SecondMinutePulseBegin = Some 0
  /\ decodeField pa' (SecondMinutePulseBegin + 50) 8 = Some 113
  /\ decodedDay pa' FirstMinutePulseBegin = Some 31
  /\ decodedMonthField pa' FirstMinutePulseBegin = Some 11.
Proof. vm_compute. repeat split. Qed.

(** C5. From every state reachable after [setupDcf]: when the corrected
    time read has its second in 0..56, [readAndDecodeTime] leaves a
    complete 183-slot buffer -- slots 0, 1 and 182 hold the header and
    trailer pattern Short, None, Short, every slot 2..181 is written by
    this call (its value does not depend on what the buffer held before),
    and the ticker only ever runs, inside the two delays, on that complete
    buffer; when the second is in 57..59 the call builds nothing: it
    returns after bumping [lastCheck], with no delay and with every slot
    of the buffer unchanged. *)
Theorem compose_or_skip now st :
  reachable st ->
  let t := correctedTime now st in
  let st' := readAndDecodeTime now st in
  (0 <= tm_sec t <= 56 ->
     length (pulseArray st') = Z.to_nat MaxPulseNumber
     /\ slot (pulseArray st') 0 = Some PulseShort
     /\ slot (pulseArray st') 1 = Some PulseNone
     /\ slot (pulseArray st') (MaxPulseNumber - 1) = Some PulseShort
     /\ (forall j v, slot (pulseArray st') j = Some v ->
           v = PulseNone \/ v = PulseShort \/ v = PulseLong)
     /\ (forall j pb,
           FirstMinutePulseBegin <= j < ThirdMinutePulseBegin + 60 ->
           length pb = Z.to_nat MaxPulseNumber ->
           slot (pulseArray st') j = slot (composeFrames t pb) j)
     /\ exists ms,
          st' = delay 150000
                  (set_dcfOutputOn 1
                     (delay ms (set_pulseArray (pulseArray st') st))))
  /\ (57 <= tm_sec t <= 59 ->
     pulseArray st' = pulseArray st
     /\ st' = set_lastCheck (Int.ulong_wrap (lastCheck st + 30000)) st).
Proof.
  intros Hreach t st'.
  destruct (reachable_inv st Hreach) as [Htel _].
  split.
  - intros Hs.
    assert (Epa : pulseArray st' = composeFrames t (pulseArray st)).
    { subst st' t. rewrite readAndDecodeTime_buffer.
      destruct (Z.ltb_spec 56 (tm_sec (correctedTime now st))); [lia|].
      reflexivity. }
    pose proof (telegramOk_composeFrames t _ Htel) as Hok.
    rewrite <- Epa in Hok.
    destruct Hok as (Hlen & H0 & H1 & H182 & Hcodes).
    destruct Htel as (Hlen0 & _).
    repeat (split; [assumption|]).
    split.
    + intros j pb Hj Hpb. rewrite Epa.
      unfold FirstMinutePulseBegin, ThirdMinutePulseBegin in Hj.
      assert (Hcase : (exists k, 0 <= k < 60 /\ j = FirstMinutePulseBegin + k)
                 \/ (exists k, 0 <= k < 60 /\ j = SecondMinutePulseBegin + k)
                 \/ (exists k, 0 <= k < 60 /\ j = ThirdMinutePulseBegin + k)).
      { unfold FirstMinutePulseBegin, SecondMinutePulseBegin,
          ThirdMinutePulseBegin.
        destruct (Z.lt_ge_cases j 62); [left; exists (j - 2); lia|].
        destruct (Z.lt_ge_cases j 122); [right; left; exists (j - 62); lia|].
        right; right; exists (j - 122); lia. }
      destruct Hcase as [(k & Hk & ->) | [(k & Hk & ->) | (k & Hk & ->)]].
      * destruct (slot_composeFrames_frame t (pulseArray st) k Hlen0 Hk)
          as (-> & _).
        destruct (slot_composeFrames_frame t pb k Hpb Hk) as (-> & _).
        reflexivity.
      * destruct (slot_composeFrames_frame t (pulseArray st) k Hlen0 Hk)
          as (_ & -> & _).
        destruct (slot_composeFrames_frame t pb k Hpb Hk) as (_ & -> & _).
        reflexivity.
      * destruct (slot_composeFrames_frame t (pulseArray st) k Hlen0 Hk)
          as (_ & _ & ->).
        destruct (slot_composeFrames_frame t pb k Hpb Hk) as (_ & _ & ->).
        reflexivity.
    + exists (Int.mul (Int.sub 58 (tm_sec (addMinute (addMinute t)))) 1000).
      rewrite Epa. subst st' t. apply readAndDecodeTime_run. lia.
  - intros Hs. subst st' t.
    rewrite readAndDecodeTime_skip by lia. split; reflexivity.
Qed.

(** C6. In a composed cycle (corrected second s in 0..56) the seconds
    field is still s after the time structure has been advanced by two
    minutes, so the delay before the output is switched on is
    [(58 - s) * 1000] milliseconds: the call is exactly "build the three
    frames, wait (58 - s) seconds, set [dcfOutputOn], wait 150 seconds",
    and the clock at activation stands (58 - s) seconds after the call. *)
Theorem alignment_delay now st :
  let t := correctedTime now st in
  let s := tm_sec t in
  0 <= s <= 56 ->
  let built := set_pulseArray (composeFrames t (pulseArray st)) st in
  let waiting := delay ((58 - s) * 1000) built in
  tm_sec (addMinute (addMinute t)) = s
  /\ Int.mul (Int.sub 58 (tm_sec (addMinute (addMinute t)))) 1000 =
       (58 - s) * 1000
  /\ readAndDecodeTime now st = delay 150000 (set_dcfOutputOn 1 waiting)
  /\ dcfOutputOn built = dcfOutputOn st
  /\ clock_ms waiting = clock_ms st + (58 - s) * 1000.
Proof.
  intros t s Hs built waiting.
  assert (E : tm_sec (addMinute (addMinute t)) = s).
  { subst s. rewrite addMinute_sec; rewrite addMinute_sec; lia. }
  assert (Ems : Int.mul (Int.sub 58 (tm_sec (addMinute (addMinute t)))) 1000
                = (58 - s) * 1000).
  { rewrite E. rewrite int_sub_small by int_small.
    apply int_mul_small. int_small. }
  split; [exact E|]. split; [exact Ems|]. split; [|split].
  - subst waiting built. rewrite <- Ems.
    subst s t. apply readAndDecodeTime_run. lia.
  - reflexivity.
  - subst waiting. destruct (delay_frame ((58 - s) * 1000) built)
      as (_ & -> & _). reflexivity.
Qed.

(** C10. For each of the three offsets 2, 62 and 122, [calculateArray]
    assigns every one of the sixty slots [off .. off + 59] (the value left
    there is that of the frame, whatever the buffer held) and changes no
    other element of [pulseArray]; the header and trailer slots 0, 1 and
    182, which [setupDcf] writes, keep their values across
    [calculateArray] and across a whole call of [readAndDecodeTime]. *)
Theorem calculateArray_frame_effect off t pa :
  off = FirstMinutePulseBegin \/ off = SecondMinutePulseBegin
  \/ off = ThirdMinutePulseBegin ->
  length pa = Z.to_nat MaxPulseNumber ->
  (forall k, 0 <= k < 60 ->
     slot (calculateArray off t pa) (off + k) = Some (frameSlot t k))
  /\ (forall k pb, 0 <= k < 60 -> length pb = Z.to_nat MaxPulseNumber ->
        slot (calculateArray off t pa) (off + k) =
        slot (calculateArray off t pb) (off + k))
  /\ (forall j, j < off \/ off + 60 <= j ->
        slot (calculateArray off t pa) j = slot pa j)
  /\ length (calculateArray off t pa) = length pa
  /\ (forall offset, let pa0 := pulseArray (setupDcf (bootState offset)) in
        slot pa0 0 = Some PulseShort /\ slot pa0 1 = Some PulseNone
        /\ slot pa0 (MaxPulseNumber - 1) = Some PulseShort)
  /\ (forall now st j,
        length (pulseArray st) = Z.to_nat MaxPulseNumber ->
        j = 0 \/ j = 1 \/ j = MaxPulseNumber - 1 ->
        slot (pulseArray (readAndDecodeTime now st)) j = slot (pulseArray st) j).
Proof.
  unfold FirstMinutePulseBegin, SecondMinutePulseBegin, ThirdMinutePulseBegin,
    MaxPulseNumber.
  intros Hoff Hlen.
  assert (Hb : forall pb : list Z, length pb = Z.to_nat 183 ->
            0 <= off /\ off + 60 <= Z.of_nat (length pb)
            /\ Z.of_nat (length pb) <= 2 ^ 30).
  { intros pb ->. change (2 ^ 30) with 1073741824. lia. }
  destruct (Hb pa Hlen) as (B1 & B2 & B3).
  split; [|split; [|split; [|split; [|split]]]].
  - intros k Hk. apply slot_calculateArray_in; assumption.
  - intros k pb Hk Hpb. destruct (Hb pb Hpb) as (C1 & C2 & C3).
    rewrite !slot_calculateArray_in by assumption. reflexivity.
  - intros j Hj. apply slot_calculateArray_out; assumption.
  - apply calculateArray_length.
  - intros offset. cbn. repeat split.
  - intros now st j Hst Hj. rewrite readAndDecodeTime_buffer.
    destruct (56 <? tm_sec (correctedTime now st)); [reflexivity|].
    apply slot_composeFrames_header; [exact Hst|].
    unfold FirstMinutePulseBegin, ThirdMinutePulseBegin. lia.
Qed.

(** * Out-of-range input to the BCD encoder *)

(** C9 (as amended). [bin2Bcd] does not fail on an out-of-range value: it
    performs no range check and returns to its caller for every [int]
    input.  A negative input is returned unchanged; an input of 100 or
    more yields [((dato / 10) << 4) + dato % 10], whose tens part no
    longer fits the high nibble. *)
Theorem bin2Bcd_no_range_check dato :
  Int.in_range dato ->
  dato < 0 \/ 100 <= dato ->
  exists v, call_bin2Bcd dato = Returned v
    /\ (dato < 0 -> v = dato)
    /\ (100 <= dato < 10 * 2 ^ 27 ->
          v = 16 * (dato / 10) + dato mod 10 /\ 10 <= v / 16).
Proof.
  intros Hr Hd. exists (bin2Bcd dato). split; [reflexivity|].
  unfold bin2Bcd. split.
  - intros Hneg. destruct (Z.ltb_spec dato 10); [reflexivity|lia].
  - intros Hbig. destruct (Z.ltb_spec dato 10); [lia|].
    change (2 ^ 27) with 134217728 in Hbig.
    rewrite Z.quot_div_nonneg, Z.rem_mod_nonneg by lia.
    pose proof (Z.mod_pos_bound dato 10 ltac:(lia)).
    assert (10 <= dato / 10 < 134217728).
    { split; [apply Z.div_le_lower_bound; lia
             |apply Z.div_lt_upper_bound; lia]. }
    unfold Int.shl. rewrite Z.shiftl_mul_pow2 by lia. change (2 ^ 4) with 16.
    rewrite (int_wrap_small (dato / 10 * 16)) by int_small.
    rewrite int_add_small by int_small.
    split; [lia|].
    apply Z.div_le_lower_bound; lia.
Qed.

(** The value 100 is encoded, not rejected. *)
Lemma bin2Bcd_no_range_check_witness :
  Int.in_range 100 /\ (100 < 0 \/ 100 <= 100) /\
  exists v, call_bin2Bcd 100 = Returned v
    /\ (100 < 0 -> v = 100)
    /\ (100 <= 100 < 10 * 2 ^ 27 ->
          v = 16 * (100 / 10) + 100 mod 10 /\ 10 <= v / 16).
Proof.
  assert (H1 : Int.in_range 100) by (unfold Int.in_range; lia).
  assert (H2 : 100 < 0 \/ 100 <= 100) by (right; lia).
  split; [exact H1|]. split; [exact H2|].
  exact (bin2Bcd_no_range_check 100 H1 H2).
Defined.

(** C9 fails as stated: [bin2Bcd 100] returns 160 and [bin2Bcd (-5)]
    returns -5; neither call aborts. *)
Lemma bin2Bcd_out_of_range_returns :
  call_bin2Bcd 100 = Returned 160 /\ call_bin2Bcd 100 <> Aborted
  /\ call_bin2Bcd (-5) = Returned (-5) /\ call_bin2Bcd (-5) <> Aborted.
Proof. repeat split; try reflexivity; discriminate. Qed.

(** * Instances on concrete inputs *)

Lemma slot_pulse_shape_witness :
  reachable (set_dcfOutputOn 1 freshState)
  /\ dcfOutputOn (set_dcfOutputOn 1 freshState) = 1
  /\ partialpulseCount (set_dcfOutputOn 1 freshState) = 0
  /\ pinLevel (Nat.iter 1 dcfOut (set_dcfOutputOn 1 freshState)) = 0
  /\ pinLevel (Nat.iter 2 dcfOut (set_dcfOutputOn 1 freshState)) = 1.
Proof.
  assert (Hr : reachable (set_dcfOutputOn 1 freshState))
    by exact (reach_step _ _ (reach_setup 0) (step_activate _)).
  assert (H1 : dcfOutputOn (set_dcfOutputOn 1 freshState) = 1) by reflexivity.
  assert (H2 : partialpulseCount (set_dcfOutputOn 1 freshState) = 0)
    by reflexivity.
  split; [exact Hr|]. split; [exact H1|]. split; [exact H2|].
  destruct (proj1 (proj2 (proj2
              (slot_pulse_shape (set_dcfOutputOn 1 freshState) Hr H1 H2)))
              eq_refl) as [L1 L2].
  split; [exact L1|]. apply (L2 2%nat). lia.
Defined.

Lemma compose_or_skip_witness :
  reachable freshState
  /\ 0 <= tm_sec (correctedTime newYearsEve freshState) <= 56
  /\ slot (pulseArray (readAndDecodeTime newYearsEve freshState)) 0 =
       Some PulseShort
  /\ slot (pulseArray (readAndDecodeTime newYearsEve freshState)) 1 =
       Some PulseNone
  /\ slot (pulseArray (readAndDecodeTime newYearsEve freshState))
       (MaxPulseNumber - 1) = Some PulseShort.
Proof.
  assert (Hr : reachable freshState) by exact (reach_setup 0).
  assert (Hs : 0 <= tm_sec (correctedTime newYearsEve freshState) <= 56)
    by (vm_compute; split; discriminate).
  split; [exact Hr|]. split; [exact Hs|].
  destruct (proj1 (compose_or_skip newYearsEve freshState Hr) Hs)
    as (_ & H0 & H1 & H182 & _).
  split; [exact H0|]. split; [exact H1|]. exact H182.
Defined.

Lemma alignment_delay_witness :
  0 <= tm_sec (correctedTime newYearsEve freshState) <= 56
  /\ tm_sec (addMinute (addMinute (correctedTime newYearsEve freshState))) = 30
  /\ Int.mul
       (Int.sub 58
          (tm_sec (addMinute (addMinute (correctedTime newYearsEve freshState)))))
       1000 = 28000.
Proof.
  assert (Hs : 0 <= tm_sec (correctedTime newYearsEve freshState) <= 56)
    by (vm_compute; split; discriminate).
  split; [exact Hs|].
  destruct (alignment_delay newYearsEve freshState Hs) as (E & Ems & _).
  split; [exact E | exact Ems].
Defined.

Lemma calculateArray_frame_effect_witness :
  (SecondMinutePulseBegin = FirstMinutePulseBegin
   \/ SecondMinutePulseBegin = SecondMinutePulseBegin
   \/ SecondMinutePulseBegin = ThirdMinutePulseBegin)
  /\ length (pulseArray freshState) = Z.to_nat MaxPulseNumber
  /\ slot (calculateArray SecondMinutePulseBegin newYearsEve
             (pulseArray freshState)) 61 = Some 0
  /\ slot (calculateArray SecondMinutePulseBegin newYearsEve
             (pulseArray freshState)) 182 = Some 1.
Proof.
  assert (Ho : SecondMinutePulseBegin = FirstMinutePulseBegin
               \/ SecondMinutePulseBegin = SecondMinutePulseBegin
               \/ SecondMinutePulseBegin = ThirdMinutePulseBegin)
    by (right; left; reflexivity).
  assert (Hl : length (pulseArray freshState) = Z.to_nat MaxPulseNumber)
    by reflexivity.
  split; [exact Ho|]. split; [exact Hl|].
  destruct (calculateArray_frame_effect SecondMinutePulseBegin newYearsEve
              (pulseArray freshState) Ho Hl) as (_ & _ & Hout & _).
  split.
  - exact (Hout 61 (or_introl eq_refl)).
  - refine (Hout 182 (or_intror _)). discriminate.
Defined.

(** * Further properties of the frame builder *)

Lemma slot_lookup (pa : list Z) (i : nat) : slot pa (Z.of_nat i) = pa !! i.
Proof.
  unfold slot. destruct (Z.leb_spec 0 (Z.of_nat i)); [|lia].
  rewrite Nat2Z.id. reflexivity.
Qed.

(** Two buffers that read the same everywhere are the same. *)
Lemma slot_ext (pa pb : list Z) :
  (forall j, slot pa j = slot pb j) -> pa = pb.
Proof.
  intros H. apply list_eq. intros i. rewrite <- !slot_lookup. apply H.
Qed.

(** A read of a frame, inside or outside of it. *)
Lemma slot_calculateArray_cases off t pa j :
  frameFits off pa ->
  (off <= j < off + 60
   /\ slot (calculateArray off t pa) j = Some (frameSlot t (j - off)))
  \/ ((j < off \/ off + 60 <= j)
      /\ slot (calculateArray off t pa) j = slot pa j).
Proof.
  intros Hfit. destruct (frameFits_bounds _ _ Hfit) as (B1 & B2 & B3).
  destruct (Z.lt_ge_cases j off) as [Hlt|Hge];
    [right; split; [lia|]; apply slot_calculateArray_out; lia|].
  destruct (Z.lt_ge_cases j (off + 60)) as [Hin|Hout];
    [|right; split; [lia|]; apply slot_calculateArray_out; lia].
  left. split; [lia|].
  replace j with (off + (j - off)) at 1 by lia.
  apply slot_calculateArray_in; lia.
Qed.

Lemma frameFits_calculateArray off off' t pa :
  frameFits off pa -> frameFits off (calculateArray off' t pa).
Proof.
  unfold frameFits. rewrite calculateArray_length. tauto.
Qed.

(** X7. Building a frame over an earlier frame at the same offset leaves
    exactly what building it on the original buffer leaves: nothing of
    the overwritten frame survives, and building twice is the same as
    building once. *)
Theorem calculateArray_overwrites off t1 t2 pa :
  frameFits off pa ->
  calculateArray off t2 (calculateArray off t1 pa) = calculateArray off t2 pa
  /\ calculateArray off t2 (calculateArray off t2 pa) = calculateArray off t2 pa.
Proof.
  intros Hfit.
  assert (Hgen : forall t, calculateArray off t2 (calculateArray off t pa)
                           = calculateArray off t2 pa).
  { intros t. apply slot_ext. intros j.
    pose proof (frameFits_calculateArray off off t pa Hfit) as Hfit'.
    destruct (slot_calculateArray_cases off t2 (calculateArray off t pa) j Hfit')
      as [[Hj ->] | [Hj ->]];
    destruct (slot_calculateArray_cases off t2 pa j Hfit)
      as [[Hj' ->] | [Hj' ->]]; try lia; [reflexivity|].
    destruct (slot_calculateArray_cases off t pa j Hfit)
      as [[Hj'' ->] | [Hj'' ->]]; [lia | reflexivity]. }
  split; apply Hgen.
Qed.

Lemma calculateArray_overwrites_witness :
  frameFits 62 (replicate 183 0)
  /\ calculateArray 62 newYearsEve
       (calculateArray 62 (mkTm 0 37 12 15 5 124 6 0 1) (replicate 183 0))
     = calculateArray 62 newYearsEve (replicate 183 0).
Proof.
  assert (Hfit : frameFits 62 (replicate 183 0))
    by (unfold frameFits, MaxPulseNumber; rewrite length_replicate; lia).
  split; [exact Hfit|].
  exact (proj1 (calculateArray_overwrites 62
           (mkTm 0 37 12 15 5 124 6 0 1) newYearsEve (replicate 183 0) Hfit)).
Defined.

(** X8. Frames that do not overlap are independent: building them in
    either order gives the same buffer. *)
Theorem calculateArray_commutes off1 off2 t1 t2 pa :
  frameFits off1 pa -> frameFits off2 pa ->
  off1 + 60 <= off2 \/ off2 + 60 <= off1 ->
  calculateArray off1 t1 (calculateArray off2 t2 pa)
  = calculateArray off2 t2 (calculateArray off1 t1 pa).
Proof.
  intros Hfit1 Hfit2 Hdis. apply slot_ext. intros j.
  pose proof (frameFits_calculateArray off1 off2 t2 pa Hfit1) as Hfit1'.
  pose proof (frameFits_calculateArray off2 off1 t1 pa Hfit2) as Hfit2'.
  destruct (slot_calculateArray_cases off1 t1 (calculateArray off2 t2 pa) j Hfit1')
    as [[Hj ->] | [Hj ->]];
  destruct (slot_calculateArray_cases off2 t2 (calculateArray off1 t1 pa) j Hfit2')
    as [[Hj' ->] | [Hj' ->]]; try lia.
  - destruct (slot_calculateArray_cases off1 t1 pa j Hfit1)
      as [[Hj'' ->] | [Hj'' ->]]; [reflexivity | lia].
  - destruct (slot_calculateArray_cases off2 t2 pa j Hfit2)
      as [[Hj'' ->] | [Hj'' ->]]; [reflexivity | lia].
  - destruct (slot_calculateArray_cases off2 t2 pa j Hfit2)
      as [[Hj'' ->] | [Hj'' ->]]; [lia|].
    destruct (slot_calculateArray_cases off1 t1 pa j Hfit1)
      as [[Hj3 ->] | [Hj3 ->]]; [lia | reflexivity].
Qed.

Lemma calculateArray_commutes_witness :
  frameFits 2 (replicate 183 0) /\ frameFits 122 (replicate 183 0)
  /\ (2 + 60 <= 122 \/ 122 + 60 <= 2)
  /\ calculateArray 2 newYearsEve
       (calculateArray 122 (mkTm 0 37 12 15 5 124 6 0 1) (replicate 183 0))
     = calculateArray 122 (mkTm 0 37 12 15 5 124 6 0 1)
         (calculateArray 2 newYearsEve (replicate 183 0)).
Proof.
  assert (H1 : frameFits 2 (replicate 183 0))
    by (unfold frameFits, MaxPulseNumber; rewrite length_replicate; lia).
  assert (H2 : frameFits 122 (replicate 183 0))
    by (unfold frameFits, MaxPulseNumber; rewrite length_replicate; lia).
  assert (H3 : 2 + 60 <= 122 \/ 122 + 60 <= 2) by (left; lia).
  split; [exact H1|]. split; [exact H2|]. split; [exact H3|].
  exact (calculateArray_commutes 2 122 newYearsEve
           (mkTm 0 37 12 15 5 124 6 0 1) (replicate 183 0) H1 H2 H3).
Defined.

(** X4. Whatever the time, a frame has Short pulses at seconds 0..16 and
    19, a Long pulse at second 20 and no pulse at second 59.  Seconds 17
    and 18 carry the daylight-saving flag: 17 is Long and 18 Short when
    [tm_isdst] is exactly 1, and 17 is Short and 18 Long for every other
    value (0, negative or above 1), so exactly one of the two is Long. *)
Theorem fixed_and_dst_slots off t pa :
  frameFits off pa ->
  let pa' := calculateArray off t pa in
  (forall k, 0 <= k <= 16 \/ k = 19 -> slot pa' (off + k) = Some PulseShort)
  /\ slot pa' (off + 20) = Some PulseLong
  /\ slot pa' (off + 59) = Some PulseNone
  /\ (tm_isdst t = 1 ->
        slot pa' (off + 17) = Some PulseLong
        /\ slot pa' (off + 18) = Some PulseShort)
  /\ (tm_isdst t <> 1 ->
        slot pa' (off + 17) = Some PulseShort
        /\ slot pa' (off + 18) = Some PulseLong).
Proof.
  intros Hfit pa'. subst pa'.
  destruct (frameFits_bounds _ _ Hfit) as (B1 & B2 & B3).
  split; [|split; [|split; [|split]]].
  - intros k Hk. rewrite slot_calculateArray_in by lia.
    unfold frameSlot. zcases.
  - rewrite slot_calculateArray_in by lia. reflexivity.
  - rewrite slot_calculateArray_in by lia. reflexivity.
  - intros E. rewrite !slot_calculateArray_in by lia.
    unfold frameSlot. rewrite E. split; reflexivity.
  - intros E. rewrite !slot_calculateArray_in by lia.
    unfold frameSlot. cbn [Z.eqb Z.leb Z.compare Pos.compare Pos.eqb
                            Pos.compare_cont].
    destruct (Z.eqb_spec (tm_isdst t) 1); [contradiction|].
    split; reflexivity.
Qed.

Lemma fixed_and_dst_slots_witness :
  frameFits 2 (replicate 183 0)
  /\ slot (calculateArray 2 (mkTm 0 37 12 15 5 124 6 0 (-1)) (replicate 183 0))
       (2 + 17) = Some PulseShort
  /\ slot (calculateArray 2 (mkTm 0 37 12 15 5 124 6 0 (-1)) (replicate 183 0))
       (2 + 18) = Some PulseLong.
Proof.
  assert (Hfit : frameFits 2 (replicate 183 0))
    by (unfold frameFits, MaxPulseNumber; rewrite length_replicate; lia).
  split; [exact Hfit|].
  refine (proj2 (proj2 (proj2 (proj2 (fixed_and_dst_slots 2
            (mkTm 0 37 12 15 5 124 6 0 (-1)) (replicate 183 0) Hfit)))) _).
  cbn [tm_isdst]. lia.
Defined.

Lemma frameSlot_none_iff t k : frameSlot t k = PulseNone <-> k = 59.
Proof.
  assert (Hb : forall v i, bitAt v i + 1 <> 0)
    by (intros v i; destruct (bitAt_cases v i); lia).
  assert (Hp : forall p, parityCode p <> 0)
    by (intros p; unfold parityCode; destruct (_ =? _); lia).
  unfold PulseNone. split.
  - unfold frameSlot.
    destruct (Z.eqb_spec k 59); [tauto|].
    repeat match goal with
      | |- context [if ?c then _ else _] => destruct c
      end; intros E; try discriminate E;
      first [apply Hb in E | apply Hp in E]; contradiction.
  - intros ->. reflexivity.
Qed.

(** X5. In a frame only second 59 is the missing pulse: every other
    second carries a Short or a Long pulse, for every time, in range or
    not. *)
Theorem frame_gap_only_at_59 off t pa k :
  frameFits off pa -> 0 <= k < 60 ->
  let v := slot (calculateArray off t pa) (off + k) in
  (v = Some PulseNone <-> k = 59)
  /\ (k <> 59 -> v = Some PulseShort \/ v = Some PulseLong).
Proof.
  intros Hfit Hk v. subst v.
  destruct (frameFits_bounds _ _ Hfit) as (B1 & B2 & B3).
  rewrite slot_calculateArray_in by lia.
  pose proof (frameSlot_none_iff t k) as Hn.
  split.
  - split; [intros E; injection E as E; tauto | intros E; f_equal; tauto].
  - intros Hne. destruct (frameSlot_code t k) as [E | [E | E]];
      rewrite E; [tauto | auto | auto].
Qed.

Lemma frame_gap_only_at_59_witness :
  frameFits 122 (replicate 183 7) /\ 0 <= 58 < 60
  /\ (slot (calculateArray 122 newYearsEve (replicate 183 7)) (122 + 58)
        = Some PulseNone <-> 58 = 59).
Proof.
  assert (Hfit : frameFits 122 (replicate 183 7))
    by (unfold frameFits, MaxPulseNumber; rewrite length_replicate; lia).
  assert (Hk : 0 <= 58 < 60) by lia.
  split; [exact Hfit|]. split; [exact Hk|].
  exact (proj1 (frame_gap_only_at_59 122 newYearsEve (replicate 183 7) 58
                  Hfit Hk)).
Defined.

(** X6. On the two-digit range 0..99 [bin2Bcd] is packed BCD: the tens
    digit sits in the high nibble, the units digit in the low nibble, the
    result fits eight bits, and decoding it gives the argument back. *)
Theorem bin2Bcd_roundtrip m :
  0 <= m < 100 ->
  bin2Bcd m / 16 = m / 10
  /\ bin2Bcd m mod 16 = m mod 10
  /\ 0 <= bin2Bcd m < 256
  /\ bcdDecode (bin2Bcd m) = m.
Proof.
  intros Hm. rewrite bin2Bcd_packed by lia.
  pose proof (packedBcd_bound m 99 ltac:(lia) ltac:(lia)) as B.
  change (packedBcd 99 + 9) with 162 in B.
  pose proof (bcdDecode_packed m Hm) as D.
  pose proof (Z.mod_pos_bound m 10 ltac:(lia)) as Hu.
  assert (Hq : packedBcd m / 16 = m / 10).
  { unfold packedBcd. rewrite Z.add_comm, Z.mul_comm, Z.div_add by lia.
    rewrite Z.div_small by lia. lia. }
  assert (Hr : packedBcd m mod 16 = m mod 10).
  { unfold packedBcd. rewrite Z.add_comm, Z.mul_comm, Z.mod_add by lia.
    apply Z.mod_small. lia. }
  repeat split; try assumption; lia.
Qed.

Lemma bin2Bcd_roundtrip_witness :
  0 <= 59 < 100 /\ bcdDecode (bin2Bcd 59) = 59.
Proof.
  assert (H : 0 <= 59 < 100) by lia.
  split; [exact H|].
  exact (proj2 (proj2 (proj2 (bin2Bcd_roundtrip 59 H)))).
Defined.

(** Reading two adjacent fields as one. *)
Lemma fieldBits_app pa start w1 w2 :
  fieldBits pa start (w1 + w2) =
    match fieldBits pa start w1, fieldBits pa (start + Z.of_nat w1) w2 with
    | Some a, Some b => Some (a ++ b)
    | _, _ => None
    end.
Proof.
  revert start. induction w1 as [|w1 IH]; intros start.
  - cbn [Nat.add fieldBits]. rewrite Z.add_0_r.
    destruct (fieldBits pa start w2); reflexivity.
  - cbn [Nat.add fieldBits]. rewrite IH.
    replace (start + 1 + Z.of_nat w1) with (start + Z.of_nat (S w1)) by lia.
    destruct (slot pa start ≫= pulseBit); [|reflexivity].
    destruct (fieldBits pa (start + 1) w1); [|reflexivity].
    destruct (fieldBits pa (start + Z.of_nat (S w1)) w2); reflexivity.
Qed.

Lemma fieldBits_parity_slot pa s p :
  slot pa s = Some (parityCode p) -> fieldBits pa s 1 = Some [Z.land p 1].
Proof.
  intros H. cbn [fieldBits]. rewrite H. cbn [mbind option_bind].
  rewrite pulseBit_parityCode. reflexivity.
Qed.

Lemma popcount_app a b : popcount (a ++ b) = popcount a + popcount b.
Proof.
  unfold popcount. induction a as [|x a IH]; cbn [app fold_right]; lia.
Qed.

(** X3. The three parity pulses agree with the bits actually sent, for
    every time, in range or not: the eight pulses of seconds 21..28, the
    seven of seconds 29..35 and the twenty-three of seconds 36..58 each
    carry an even number of 1 bits. *)
Theorem parity_groups_even off t pa :
  frameFits off pa ->
  let pa' := calculateArray off t pa in
  (exists bs, fieldBits pa' (off + 21) 8 = Some bs
              /\ Z.even (popcount bs) = true)
  /\ (exists bs, fieldBits pa' (off + 29) 7 = Some bs
                 /\ Z.even (popcount bs) = true)
  /\ (exists bs, fieldBits pa' (off + 36) 23 = Some bs
                 /\ Z.even (popcount bs) = true).
Proof.
  intros Hfit pa'. subst pa'.
  destruct (frameFits_bounds _ _ Hfit) as (B1 & B2 & B3).
  assert (Hfield : forall k w v,
            0 <= k -> k + Z.of_nat w <= 60 ->
            (forall i, 0 <= i < Z.of_nat w ->
               frameSlot t (k + i) = bitAt v i + 1) ->
            fieldBits (calculateArray off t pa) (off + k) w
            = Some (lowBits w v)).
  { intros. apply fieldBits_frame; assumption. }
  assert (Hpar : forall k p, 0 <= k < 60 -> frameSlot t k = parityCode p ->
            fieldBits (calculateArray off t pa) (off + k) 1
            = Some [Z.land p 1]).
  { intros k p Hk E. apply fieldBits_parity_slot.
    rewrite slot_calculateArray_in by lia. rewrite E. reflexivity. }
  split; [|split].
  - exists (lowBits 7 (bin2Bcd (tm_min t))
            ++ [Z.land (bitsSum 7 (bin2Bcd (tm_min t))) 1]).
    split.
    + change 8%nat with (7 + 1)%nat. rewrite fieldBits_app.
      rewrite (Hfield 21 7%nat (bin2Bcd (tm_min t)))
        by (try apply frameSlot_minute; lia).
      replace (off + 21 + Z.of_nat 7) with (off + 28) by lia.
      rewrite (Hpar 28 (bitsSum 7 (bin2Bcd (tm_min t)))) by (reflexivity || lia).
      reflexivity.
    + rewrite popcount_app, popcount_lowBits.
      cbn [popcount fold_right]. rewrite Z.add_0_r. apply even_add_land.
  - exists (lowBits 6 (bin2Bcd (tm_hour t))
            ++ [Z.land (bitsSum 6 (bin2Bcd (tm_hour t))) 1]).
    split.
    + change 7%nat with (6 + 1)%nat. rewrite fieldBits_app.
      rewrite (Hfield 29 6%nat (bin2Bcd (tm_hour t)))
        by (try apply frameSlot_hour; lia).
      replace (off + 29 + Z.of_nat 6) with (off + 35) by lia.
      rewrite (Hpar 35 (bitsSum 6 (bin2Bcd (tm_hour t)))) by (reflexivity || lia).
      reflexivity.
    + rewrite popcount_app, popcount_lowBits.
      cbn [popcount fold_right]. rewrite Z.add_0_r. apply even_add_land.
  - exists (lowBits 6 (bin2Bcd (tm_mday t))
            ++ lowBits 3 (bin2Bcd (tm_wday t))
            ++ lowBits 5 (bin2Bcd (tm_mon t))
            ++ lowBits 8 (bin2Bcd (Int.sub (tm_year t) 2000))
            ++ [Z.land (dateParityCount t) 1]).
    split.
    + change 23%nat with (6 + (3 + (5 + (8 + 1))))%nat.
      rewrite fieldBits_app.
      rewrite (Hfield 36 6%nat (bin2Bcd (tm_mday t)))
        by (try apply frameSlot_mday; lia).
      replace (off + 36 + Z.of_nat 6) with (off + 42) by lia.
      rewrite fieldBits_app.
      rewrite (Hfield 42 3%nat (bin2Bcd (tm_wday t)))
        by (try apply frameSlot_wday; lia).
      replace (off + 42 + Z.of_nat 3) with (off + 45) by lia.
      rewrite fieldBits_app.
      rewrite (Hfield 45 5%nat (bin2Bcd (tm_mon t)))
        by (try apply frameSlot_mon; lia).
      replace (off + 45 + Z.of_nat 5) with (off + 50) by lia.
      rewrite fieldBits_app.
      rewrite (Hfield 50 8%nat (bin2Bcd (Int.sub (tm_year t) 2000)))
        by (try apply frameSlot_year; lia).
      replace (off + 50 + Z.of_nat 8) with (off + 58) by lia.
      rewrite (Hpar 58 (dateParityCount t)) by (reflexivity || lia).
      reflexivity.
    + rewrite !popcount_app, !popcount_lowBits.
      cbn [popcount fold_right]. rewrite Z.add_0_r.
      replace (bitsSum 6 (bin2Bcd (tm_mday t))
               + (bitsSum 3 (bin2Bcd (tm_wday t))
                  + (bitsSum 5 (bin2Bcd (tm_mon t))
                     + (bitsSum 8 (bin2Bcd (Int.sub (tm_year t) 2000))
                        + Z.land (dateParityCount t) 1))))
        with (dateParityCount t + Z.land (dateParityCount t) 1)
        by (unfold dateParityCount; lia).
      apply even_add_land.
Qed.

(** An out-of-range time (minute 75, hour 31, day 0, year 1850) still
    gets consistent parity. *)
Lemma parity_groups_even_witness :
  frameFits 62 (replicate 183 0)
  /\ exists bs,
       fieldBits (calculateArray 62 (mkTm 0 75 31 0 13 (-50) 9 0 0)
                    (replicate 183 0)) (62 + 36) 23 = Some bs
       /\ Z.even (popcount bs) = true.
Proof.
  assert (Hfit : frameFits 62 (replicate 183 0))
    by (unfold frameFits, MaxPulseNumber; rewrite length_replicate; lia).
  split; [exact Hfit|].
  exact (proj2 (proj2 (parity_groups_even 62
           (mkTm 0 75 31 0 13 (-50) 9 0 0) (replicate 183 0) Hfit))).
Defined.

(** X1. For an hour 0..23 the six pulses of seconds 29..34 carry the
    packed BCD digits of the hour, least significant bit first, and
    decode to the hour. *)
Theorem hour_field_roundtrip off t pa :
  frameFits off pa ->
  0 <= tm_hour t <= 23 ->
  let pa' := calculateArray off t pa in
  (forall i, 0 <= i < 6 ->
     slot pa' (off + 29 + i) =
       Some (if Z.testbit (packedBcd (tm_hour t)) i
             then PulseLong else PulseShort))
  /\ decodeField pa' (off + 29) 6 = Some (tm_hour t).
Proof.
  intros Hfit Hh pa'. subst pa'.
  destruct (frameFits_bounds _ _ Hfit) as (B1 & B2 & B3).
  split.
  - intros i Hi. replace (off + 29 + i) with (off + (29 + i)) by lia.
    rewrite slot_calculateArray_in by lia.
    rewrite frameSlot_hour, bin2Bcd_packed, bitAt_testbit by lia.
    destruct (Z.testbit _ i); reflexivity.
  - apply (decodeField_digits _ _ 6 _ 23); [lia | lia | reflexivity |].
    intros i Hi. replace (off + 29 + i) with (off + (29 + i)) by lia.
    rewrite slot_calculateArray_in by lia.
    rewrite frameSlot_hour by lia. reflexivity.
Qed.

Lemma hour_field_roundtrip_witness :
  frameFits 2 (replicate 183 0) /\ 0 <= 23 <= 23
  /\ decodeField (calculateArray 2 newYearsEve (replicate 183 0)) (2 + 29) 6
     = Some 23.
Proof.
  assert (Hfit : frameFits 2 (replicate 183 0))
    by (unfold frameFits, MaxPulseNumber; rewrite length_replicate; lia).
  assert (Hh : 0 <= 23 <= 23) by lia.
  split; [exact Hfit|]. split; [exact Hh|].
  exact (proj2 (hour_field_roundtrip 2 newYearsEve (replicate 183 0) Hfit Hh)).
Defined.

(** X2. For a day of the month 1..31 the six pulses of seconds 36..41
    carry the packed BCD digits of the day, least significant bit first,
    and decode to the day. *)
Theorem day_field_roundtrip off t pa :
  frameFits off pa ->
  1 <= tm_mday t <= 31 ->
  let pa' := calculateArray off t pa in
  (forall i, 0 <= i < 6 ->
     slot pa' (off + 36 + i) =
       Some (if Z.testbit (packedBcd (tm_mday t)) i
             then PulseLong else PulseShort))
  /\ decodeField pa' (off + 36) 6 = Some (tm_mday t).
Proof.
  intros Hfit Hd pa'. subst pa'.
  destruct (frameFits_bounds _ _ Hfit) as (B1 & B2 & B3).
  split.
  - intros i Hi. replace (off + 36 + i) with (off + (36 + i)) by lia.
    rewrite slot_calculateArray_in by lia.
    rewrite frameSlot_mday, bin2Bcd_packed, bitAt_testbit by lia.
    destruct (Z.testbit _ i); reflexivity.
  - apply (decodeField_digits _ _ 6 _ 31); [lia | lia | reflexivity |].
    intros i Hi. replace (off + 36 + i) with (off + (36 + i)) by lia.
    rewrite slot_calculateArray_in by lia.
    rewrite frameSlot_mday by lia. reflexivity.
Qed.

Lemma day_field_roundtrip_witness :
  frameFits 2 (replicate 183 0) /\ 1 <= 31 <= 31
  /\ decodeField (calculateArray 2 newYearsEve (replicate 183 0)) (2 + 36) 6
     = Some 31.
Proof.
  assert (Hfit : frameFits 2 (replicate 183 0))
    by (unfold frameFits, MaxPulseNumber; rewrite length_replicate; lia).
  assert (Hd : 1 <= 31 <= 31) by lia.
  split; [exact Hfit|]. split; [exact Hd|].
  exact (proj2 (day_field_roundtrip 2 newYearsEve (replicate 183 0) Hfit Hd)).
Defined.

(** X9. The weekday and month fields carry the [struct tm] values as
    they are: for [tm_wday] in 0..6 (days since Sunday) seconds 42..44
    decode to [tm_wday], and for [tm_mon] in 0..11 (months since January)
    seconds 45..49 decode to [tm_mon]. *)
Theorem weekday_and_month_as_stored off t pa :
  frameFits off pa ->
  0 <= tm_wday t <= 6 -> 0 <= tm_mon t <= 11 ->
  decodeField (calculateArray off t pa) (off + 42) 3 = Some (tm_wday t)
  /\ decodeField (calculateArray off t pa) (off + 45) 5 = Some (tm_mon t).
Proof.
  intros Hfit Hw Hm. split.
  - apply weekday_field_is_tm_wday; assumption.
  - rewrite month_field_is_tm_mon by assumption.
    unfold calendar_month. f_equal. lia.
Qed.

Lemma weekday_and_month_as_stored_witness :
  frameFits 2 (replicate 183 0) /\ 0 <= 2 <= 6 /\ 0 <= 11 <= 11
  /\ decodeField (calculateArray 2 newYearsEve (replicate 183 0)) (2 + 42) 3
     = Some 2
  /\ decodeField (calculateArray 2 newYearsEve (replicate 183 0)) (2 + 45) 5
     = Some 11.
Proof.
  assert (Hfit : frameFits 2 (replicate 183 0))
    by (unfold frameFits, MaxPulseNumber; rewrite length_replicate; lia).
  assert (Hw : 0 <= 2 <= 6) by lia.
  assert (Hm : 0 <= 11 <= 11) by lia.
  split; [exact Hfit|]. split; [exact Hw|]. split; [exact Hm|].
  exact (weekday_and_month_as_stored 2 newYearsEve (replicate 183 0)
           Hfit Hw Hm).
Defined.

(** X10. For the years 2000..2099 ([tm_year] 100..199) the argument
    [tm_year - 2000] of [bin2Bcd] is negative and comes back unchanged,
    so seconds 50..57 carry the low eight bits of that negative number:
    read as a binary number they give [tm_year + 48], and their BCD
    reading is never the year within the century. *)
Theorem year_field_as_stored off t pa :
  frameFits off pa ->
  100 <= tm_year t <= 199 ->
  let pa' := calculateArray off t pa in
  bin2Bcd (Int.sub (tm_year t) 2000) = tm_year t - 2000
  /\ (exists bs, fieldBits pa' (off + 50) 8 = Some bs
                 /\ bitsValue bs = tm_year t + 48)
  /\ decodeField pa' (off + 50) 8 <> Some (calendar_year t mod 100).
Proof.
  intros Hfit Hy pa'. subst pa'.
  destruct (frameFits_bounds _ _ Hfit) as (B1 & B2 & B3).
  assert (E : bin2Bcd (Int.sub (tm_year t) 2000) = tm_year t - 2000).
  { rewrite int_sub_small by int_small. unfold bin2Bcd.
    destruct (Z.ltb_spec (tm_year t - 2000) 10); [reflexivity | lia]. }
  assert (Hmod : (tm_year t - 2000) mod 2 ^ Z.of_nat 8 = tm_year t + 48).
  { change (2 ^ Z.of_nat 8) with 256.
    replace (tm_year t - 2000) with (tm_year t + 48 + (-8) * 256) by lia.
    rewrite Z.mod_add by lia. apply Z.mod_small. lia. }
  assert (Hbits : fieldBits (calculateArray off t pa) (off + 50) 8
                  = Some (lowBits 8 (tm_year t - 2000))).
  { rewrite <- E. apply fieldBits_frame; try lia. apply frameSlot_year. }
  split; [exact E|]. split.
  - exists (lowBits 8 (tm_year t - 2000)). split; [exact Hbits|].
    rewrite bitsValue_lowBits. exact Hmod.
  - unfold decodeField. rewrite Hbits.
    cbn [fmap option_fmap option_map]. rewrite bitsValue_lowBits, Hmod.
    unfold calendar_year.
    replace ((tm_year t + 1900) mod 100) with (tm_year t - 100)
      by (symmetry; replace (tm_year t + 1900)
            with (tm_year t - 100 + 20 * 100) by lia;
          rewrite Z.mod_add by lia; apply Z.mod_small; lia).
    assert (Hne : forall y, 0 <= y < Z.of_nat 100 -> bcdDecode (y + 148) <> y).
    { apply (Z_range_cases _ 100). intros i Hi.
      do 100 (destruct i as [|i]; [discriminate|]). lia. }
    intros D. injection D as D.
    apply (Hne (tm_year t - 100)); [lia|].
    replace (tm_year t - 100 + 148) with (tm_year t + 48) by lia. exact D.
Qed.

Lemma year_field_as_stored_witness :
  frameFits 2 (replicate 183 0) /\ 100 <= 124 <= 199
  /\ exists bs,
       fieldBits (calculateArray 2 newYearsEve (replicate 183 0)) (2 + 50) 8
       = Some bs /\ bitsValue bs = 124 + 48.
Proof.
  assert (Hfit : frameFits 2 (replicate 183 0))
    by (unfold frameFits, MaxPulseNumber; rewrite length_replicate; lia).
  assert (Hy : 100 <= 124 <= 199) by lia.
  split; [exact Hfit|]. split; [exact Hy|].
  exact (proj1 (proj2 (year_field_as_stored 2 newYearsEve (replicate 183 0)
                         Hfit Hy))).
Defined.

(** * Further properties of the pulse emitter *)

Lemma iter_dcfOut_idle n st :
  dcfOutputOn st <> 1 -> Nat.iter n dcfOut st = st.
Proof.
  intros H. induction n as [|n IH]; [reflexivity|].
  rewrite Nat.iter_succ, IH. apply dcfOut_idle, H.
Qed.

Lemma counters_eq st a b c :
  counters st = (a, b, c) ->
  pulseCount st = a /\ dcfOutputOn st = b /\ partialpulseCount st = c.
Proof. unfold counters. intros H. injection H as <- <- <-. auto. Qed.

Lemma counters_dcfOut st : counters (dcfOut st) = tickCounters (counters st).
Proof.
  destruct st as [pa pc on sub lc off log clk].
  unfold counters, tickCounters, dcfOut, currentPulse, MaxPulseNumber.
  change (183 - 1) with 182.
  cbn [pulseArray pulseCount dcfOutputOn partialpulseCount lastCheck
       timeCorrectionOffset pinLog clock_ms set_partialpulseCount
       set_pulseCount set_dcfOutputOn digitalWrite].
  destruct (Z.eqb_spec on 1) as [->|Hoff]; [|reflexivity].
  destruct (Z.eqb_spec sub 0), (Z.eqb_spec sub 1), (Z.eqb_spec sub 2),
    (Z.eqb_spec sub 9); try lia;
    repeat match goal with
      | |- context [if ?c then _ else _] => destruct c
      end; reflexivity.
Qed.

Lemma counters_ticks k st :
  counters (Nat.iter k dcfOut st) = Nat.iter k tickCounters (counters st).
Proof.
  induction k as [|k IH]; [reflexivity|].
  rewrite !Nat.iter_succ, counters_dcfOut, IH. reflexivity.
Qed.

(** The counters [k] ticks into a transmission. *)
Lemma tickCounters_running (k : nat) :
  (k < 1830)%nat ->
  Nat.iter k tickCounters (0, 1, 0) = (Z.of_nat k / 10, 1, Z.of_nat k mod 10).
Proof.
  induction k as [|k IH]; intros Hk; [reflexivity|].
  rewrite Nat.iter_succ, IH by lia. unfold tickCounters, MaxPulseNumber.
  change (183 - 1) with 182. change (1 =? 1) with true. cbv iota.
  pose proof (Z.div_mod (Z.of_nat k) 10 ltac:(lia)) as Hdm.
  pose proof (Z.mod_pos_bound (Z.of_nat k) 10 ltac:(lia)) as Hmb.
  pose proof (Z.div_mod (Z.of_nat (S k)) 10 ltac:(lia)) as Hdm'.
  pose proof (Z.mod_pos_bound (Z.of_nat (S k)) 10 ltac:(lia)) as Hmb'.
  destruct (Z.eqb_spec (Z.of_nat k mod 10) 9) as [E|N].
  - destruct (Z.eqb_spec (Z.of_nat k / 10) 182); [lia|].
    rewrite int_add_small by int_small.
    f_equal; [f_equal|]; lia.
  - rewrite int_add_small by int_small.
    f_equal; [f_equal|]; lia.
Qed.

Lemma tickCounters_idle (n : nat) :
  Nat.iter n tickCounters (0, 0, 0) = (0, 0, 0).
Proof.
  induction n as [|n IH]; [reflexivity|].
  rewrite Nat.iter_succ, IH. reflexivity.
Qed.

Lemma tickCounters_finished (k : nat) :
  (1830 <= k)%nat -> Nat.iter k tickCounters (0, 1, 0) = (0, 0, 0).
Proof.
  intros Hk. replace k with ((k - 1830) + 1830)%nat by lia.
  rewrite Nat.iter_add.
  assert (E : Nat.iter 1830 tickCounters (0, 1, 0) = (0, 0, 0)).
  { change 1830%nat with (S 1829). rewrite Nat.iter_succ.
    rewrite tickCounters_running by lia. reflexivity. }
  rewrite E. apply tickCounters_idle.
Qed.

(** Whatever the slot holds, the line is high once the slot is over. *)
Lemma slotLog_high code log : hd 0 (slotLog code log 9) = 1.
Proof. reflexivity. Qed.

(** X11. A transmission started at slot 0 runs for exactly 1830 ticks
    (183 slots of ten ticks): [k] ticks in, the emitter is active at slot
    [k / 10], sub-tick [k mod 10]; tick 1830 switches it off with both
    counters back at zero and the line left high; from then on further
    ticks change nothing. *)
Theorem transmission_runs_1830_ticks st :
  dcfOutputOn st = 1 -> pulseCount st = 0 -> partialpulseCount st = 0 ->
  (forall k, (k < 1830)%nat ->
     counters (Nat.iter k dcfOut st) = (Z.of_nat k / 10, 1, Z.of_nat k mod 10))
  /\ counters (Nat.iter 1830 dcfOut st) = (0, 0, 0)
  /\ pinLevel (Nat.iter 1830 dcfOut st) = 1
  /\ (forall k, (1830 <= k)%nat ->
        Nat.iter k dcfOut st = Nat.iter 1830 dcfOut st).
Proof.
  intros Hon Hpc Hsub.
  assert (Hc : counters st = (0, 1, 0))
    by (unfold counters; rewrite Hon, Hpc, Hsub; reflexivity).
  assert (Hend : counters (Nat.iter 1830 dcfOut st) = (0, 0, 0))
    by (rewrite counters_ticks, Hc; apply tickCounters_finished; lia).
  split; [|split; [|split]].
  - intros k Hk. rewrite counters_ticks, Hc. apply tickCounters_running, Hk.
  - exact Hend.
  - change 1830%nat with (10 + 1820)%nat. rewrite Nat.iter_add.
    pose proof (counters_ticks 1820 st) as H1820.
    rewrite Hc, tickCounters_running in H1820 by lia.
    destruct (Nat.iter 1820 dcfOut st) as [pa pc on sub lc off log clk].
    unfold counters in H1820. cbn in H1820.
    injection H1820 as -> -> ->.
    change (Z.of_nat 1820 / 10) with 182.
    change (Z.of_nat 1820 mod 10) with 0.
    rewrite iter_dcfOut_slot_end by lia.
    unfold pinLevel. cbn [pinLog]. apply slotLog_high.
  - intros k Hk. replace k with ((k - 1830) + 1830)%nat by lia.
    rewrite Nat.iter_add. apply iter_dcfOut_idle.
    destruct (counters_eq _ _ _ _ Hend) as (_ & E & _).
    rewrite E. discriminate.
Qed.

Lemma transmission_runs_1830_ticks_witness :
  dcfOutputOn (set_dcfOutputOn 1 freshState) = 1
  /\ pulseCount (set_dcfOutputOn 1 freshState) = 0
  /\ partialpulseCount (set_dcfOutputOn 1 freshState) = 0
  /\ counters (Nat.iter 1830 dcfOut (set_dcfOutputOn 1 freshState)) = (0, 0, 0)
  /\ pinLevel (Nat.iter 1830 dcfOut (set_dcfOutputOn 1 freshState)) = 1.
Proof.
  assert (H1 : dcfOutputOn (set_dcfOutputOn 1 freshState) = 1) by reflexivity.
  assert (H2 : pulseCount (set_dcfOutputOn 1 freshState) = 0) by reflexivity.
  assert (H3 : partialpulseCount (set_dcfOutputOn 1 freshState) = 0)
    by reflexivity.
  split; [exact H1|]. split; [exact H2|]. split; [exact H3|].
  destruct (transmission_runs_1830_ticks (set_dcfOutputOn 1 freshState)
              H1 H2 H3) as (_ & E & L & _).
  split; [exact E | exact L].
Defined.

(** X12. In every reachable state the emitter's slot index is inside the
    buffer: the read [pulseArray[pulseCount]] of [dcfOut] always hits one
    of the 183 elements, and what it finds there is one of the three
    pulse codes. *)
Theorem emitter_reads_inside_buffer st :
  reachable st ->
  0 <= pulseCount st < Z.of_nat (length (pulseArray st))
  /\ length (pulseArray st) = Z.to_nat MaxPulseNumber
  /\ exists v, slot (pulseArray st) (pulseCount st) = Some v
               /\ currentPulse st = v
               /\ (v = PulseNone \/ v = PulseShort \/ v = PulseLong).
Proof.
  intros Hreach.
  destruct (reachable_inv st Hreach) as [(Hlen & _ & _ & _ & Hcodes) (Hpc & _)].
  unfold MaxPulseNumber in *.
  assert (Hin : 0 <= pulseCount st < Z.of_nat (length (pulseArray st)))
    by (rewrite Hlen; lia).
  split; [exact Hin|]. split; [exact Hlen|].
  destruct (slot_in_bounds _ _ Hin) as [v Hv].
  exists v. split; [exact Hv|]. split.
  - unfold currentPulse. rewrite Hv. reflexivity.
  - eapply Hcodes, Hv.
Qed.

Lemma emitter_reads_inside_buffer_witness :
  reachable (readAndDecodeTime newYearsEve freshState)
  /\ 0 <= pulseCount (readAndDecodeTime newYearsEve freshState)
     < Z.of_nat (length (pulseArray (readAndDecodeTime newYearsEve freshState))).
Proof.
  assert (Hr : reachable (readAndDecodeTime newYearsEve freshState))
    by exact (reachable_readAndDecodeTime _ _ (reach_setup 0)).
  split; [exact Hr|].
  exact (proj1 (emitter_reads_inside_buffer _ Hr)).
Defined.

(** * Further properties of the composer and of the poll *)

(** A delay of a whole number of tenths of a second runs that many ticks. *)
Lemma ticksDuring_tenths c n : ticksDuring c (n * 100) = Z.to_nat n.
Proof.
  unfold ticksDuring. rewrite Z.div_add by lia. f_equal. lia.
Qed.

(** X13. A composed cycle that starts with the emitter idle returns
    while its own transmission is still running: when
    [readAndDecodeTime] returns, the emitter is active at the start of
    slot 150, (58 - s) + 150 seconds after the call; the transmission
    stays active for the next 329 ticks and ends with the 330th, 33
    seconds after the return. *)
Theorem composer_returns_mid_transmission now st :
  reachable st -> dcfOutputOn st = 0 ->
  0 <= tm_sec (correctedTime now st) <= 56 ->
  let st' := readAndDecodeTime now st in
  counters st' = (150, 1, 0)
  /\ clock_ms st' =
       clock_ms st + (58 - tm_sec (correctedTime now st)) * 1000 + 150000
  /\ (forall k, (k < 330)%nat -> dcfOutputOn (Nat.iter k dcfOut st') = 1)
  /\ counters (Nat.iter 330 dcfOut st') = (0, 0, 0).
Proof.
  intros Hreach Hidle Hs st'.
  destruct (reachable_inv st Hreach) as [_ (_ & _ & _ & Hzero)].
  destruct (Hzero Hidle) as [Hpc Hsub].
  destruct (alignment_delay now st Hs) as (_ & _ & Hrun & _ & _).
  cbv zeta in Hrun.
  set (t := correctedTime now st) in *.
  set (built := set_pulseArray (composeFrames t (pulseArray st)) st) in *.
  set (ms := (58 - tm_sec t) * 1000) in *.
  assert (Hwait : delay ms built = set_clock_ms (clock_ms st + ms) built).
  { unfold delay. apply iter_dcfOut_idle. cbn. rewrite Hidle. discriminate. }
  rewrite Hwait in Hrun.
  set (act := set_dcfOutputOn 1 (set_clock_ms (clock_ms st + ms) built)) in *.
  assert (Hact : counters act = (0, 1, 0)).
  { unfold counters, act, built. cbn. rewrite Hpc, Hsub. reflexivity. }
  assert (Hst' : st' = Nat.iter 1500 dcfOut
                         (set_clock_ms (clock_ms act + 150000) act)).
  { subst st'. rewrite Hrun. unfold delay.
    change 150000 with (1500 * 100) at 1.
    rewrite ticksDuring_tenths. reflexivity. }
  assert (Hc : counters st' = Nat.iter 1500 tickCounters (0, 1, 0)).
  { rewrite Hst', counters_ticks. f_equal. exact Hact. }
  split; [|split; [|split]].
  - rewrite Hc, tickCounters_running by lia. reflexivity.
  - rewrite Hst'.
    destruct (iter_dcfOut_frame 1500
                (set_clock_ms (clock_ms act + 150000) act)) as (_ & -> & _).
    unfold act, built, ms. cbn. lia.
  - intros k Hk.
    pose proof (counters_ticks k st') as Hk'.
    rewrite Hc, <- Nat.iter_add, tickCounters_running in Hk' by lia.
    destruct (counters_eq _ _ _ _ Hk') as (_ & E & _). exact E.
  - rewrite counters_ticks, Hc, <- Nat.iter_add.
    apply tickCounters_finished. lia.
Qed.

Lemma composer_returns_mid_transmission_witness :
  reachable freshState /\ dcfOutputOn freshState = 0
  /\ 0 <= tm_sec (correctedTime newYearsEve freshState) <= 56
  /\ counters (readAndDecodeTime newYearsEve freshState) = (150, 1, 0).
Proof.
  assert (Hr : reachable freshState) by exact (reach_setup 0).
  assert (Hi : dcfOutputOn freshState = 0) by reflexivity.
  assert (Hs : 0 <= tm_sec (correctedTime newYearsEve freshState) <= 56)
    by (vm_compute; split; discriminate).
  split; [exact Hr|]. split; [exact Hi|]. split; [exact Hs|].
  exact (proj1 (composer_returns_mid_transmission newYearsEve freshState
                  Hr Hi Hs)).
Defined.

Lemma slot_outside (pa : list Z) j :
  j < 0 \/ Z.of_nat (length pa) <= j -> slot pa j = None.
Proof.
  intros H. unfold slot. destruct (Z.leb_spec 0 j); [|reflexivity].
  apply lookup_ge_None_2. lia.
Qed.

(** X14. A composed telegram has exactly four missing pulses: slot 1 of
    the header and the minute markers at slots 61, 121 and 181; every
    other slot carries a pulse. *)
Theorem telegram_gaps now st j :
  reachable st ->
  0 <= tm_sec (correctedTime now st) <= 56 ->
  slot (pulseArray (readAndDecodeTime now st)) j = Some PulseNone
  <-> (j = 1 \/ j = 61 \/ j = 121 \/ j = 181).
Proof.
  intros Hreach Hs.
  destruct (reachable_inv st Hreach) as [(Hlen & H0 & H1 & H182 & _) _].
  rewrite readAndDecodeTime_buffer.
  destruct (Z.ltb_spec 56 (tm_sec (correctedTime now st))); [lia|].
  set (t := correctedTime now st).
  unfold MaxPulseNumber in *. change (183 - 1) with 182 in H182.
  unfold PulseNone, PulseShort in *.
  assert (Hframe : forall off k tk, 0 <= k < 60 ->
            slot (composeFrames t (pulseArray st)) (off + k)
              = Some (frameSlot tk k) ->
            (slot (composeFrames t (pulseArray st)) (off + k) = Some 0
             <-> k = 59)).
  { intros off k tk Hk ->. pose proof (frameSlot_none_iff tk k) as Hn.
    unfold PulseNone in Hn. split; [intros E; injection E as E; tauto|].
    intros E. f_equal. tauto. }
  destruct (Z.lt_ge_cases j 0) as [Hneg|Hpos].
  { rewrite slot_outside by (rewrite ?calculateArray_length; lia).
    split; [discriminate | lia]. }
  destruct (Z.lt_ge_cases j 2) as [Hhead|Hbody].
  { rewrite slot_composeFrames_header
      by (unfold FirstMinutePulseBegin, ThirdMinutePulseBegin; assumption || lia).
    assert (j = 0 \/ j = 1) as [-> | ->] by lia.
    - rewrite H0. split; [discriminate | lia].
    - rewrite H1. split; [lia | reflexivity]. }
  destruct (Z.lt_ge_cases j 62) as [Hf1|Hn1].
  { replace j with (FirstMinutePulseBegin + (j - 2))
      by (unfold FirstMinutePulseBegin; lia).
    rewrite (Hframe _ (j - 2) t) by
      (try apply (slot_composeFrames_frame t (pulseArray st) (j - 2) Hlen);
       lia).
    unfold FirstMinutePulseBegin. lia. }
  destruct (Z.lt_ge_cases j 122) as [Hf2|Hn2].
  { replace j with (SecondMinutePulseBegin + (j - 62))
      by (unfold SecondMinutePulseBegin; lia).
    rewrite (Hframe _ (j - 62) (addMinute t)) by
      (try apply (slot_composeFrames_frame t (pulseArray st) (j - 62) Hlen);
       lia).
    unfold SecondMinutePulseBegin. lia. }
  destruct (Z.lt_ge_cases j 182) as [Hf3|Hn3].
  { replace j with (ThirdMinutePulseBegin + (j - 122))
      by (unfold ThirdMinutePulseBegin; lia).
    rewrite (Hframe _ (j - 122) (addMinute (addMinute t))) by
      (try apply (slot_composeFrames_frame t (pulseArray st) (j - 122) Hlen);
       lia).
    unfold ThirdMinutePulseBegin. lia. }
  destruct (Z.eq_dec j 182) as [->|Hne].
  { rewrite slot_composeFrames_header
      by (unfold FirstMinutePulseBegin, ThirdMinutePulseBegin; assumption || lia).
    rewrite H182. split; [discriminate | lia]. }
  rewrite slot_outside
    by (unfold composeFrames; rewrite !calculateArray_length, Hlen; lia).
  split; [discriminate | lia].
Qed.

Lemma telegram_gaps_witness :
  reachable freshState
  /\ 0 <= tm_sec (correctedTime newYearsEve freshState) <= 56
  /\ slot (pulseArray (readAndDecodeTime newYearsEve freshState)) 121
     = Some PulseNone.
Proof.
  assert (Hr : reachable freshState) by exact (reach_setup 0).
  assert (Hs : 0 <= tm_sec (correctedTime newYearsEve freshState) <= 56)
    by (vm_compute; split; discriminate).
  split; [exact Hr|]. split; [exact Hs|].
  apply (proj2 (telegram_gaps newYearsEve freshState 121 Hr Hs)).
  right. right. left. reflexivity.
Defined.

Lemma ulong_diff a b : Int.ulong_wrap (Int.ulong_wrap a - Int.ulong_wrap b)
                       = Int.ulong_wrap (a - b).
Proof. unfold Int.ulong_wrap. symmetry. apply Zminus_mod. Qed.

Lemma ulong_wrap_small z : 0 <= z < 2 ^ 32 -> Int.ulong_wrap z = z.
Proof. intros H. unfold Int.ulong_wrap. apply Z.mod_small, H. Qed.

(** X15. The poll of [loop] survives the wrap-around of [millis()]: if
    [d] milliseconds (less than 2^32) have passed since [lastCheck], then
    whether or not the counter has wrapped in between, the poll does
    nothing while [d <= 60000] and, once [d > 60000], stores the current
    [millis()] in [lastCheck] and runs [readAndDecodeTime]. *)
Theorem loopPoll_wraparound ms d now st :
  0 <= lastCheck st < 2 ^ 32 -> 0 <= d < 2 ^ 32 ->
  ms = Int.ulong_wrap (lastCheck st + d) ->
  (d <= checkInterval -> loopPoll ms now st = st)
  /\ (checkInterval < d ->
        loopPoll ms now st = readAndDecodeTime now (set_lastCheck ms st)).
Proof.
  intros Hlc Hd ->. unfold loopPoll.
  assert (E : Int.ulong_wrap (Int.ulong_wrap (lastCheck st + d) - lastCheck st)
              = d).
  { rewrite <- (ulong_wrap_small (lastCheck st)) at 2 by exact Hlc.
    rewrite ulong_diff.
    replace (lastCheck st + d - lastCheck st) with d by lia.
    apply ulong_wrap_small, Hd. }
  rewrite !E. unfold checkInterval.
  split; intros H; destruct (Z.ltb_spec 60000 d); (reflexivity || lia).
Qed.

Lemma loopPoll_wraparound_witness :
  0 <= 4294960000 < 2 ^ 32 /\ 0 <= 70000 < 2 ^ 32
  /\ 62704 = Int.ulong_wrap (4294960000 + 70000)
  /\ loopPoll 62704 newYearsEve (set_lastCheck 4294960000 freshState)
     = readAndDecodeTime newYearsEve
         (set_lastCheck 62704 (set_lastCheck 4294960000 freshState)).
Proof.
  assert (H1 : 0 <= 4294960000 < 2 ^ 32) by (change (2 ^ 32) with 4294967296; lia).
  assert (H2 : 0 <= 70000 < 2 ^ 32) by (change (2 ^ 32) with 4294967296; lia).
  assert (H3 : 62704 = Int.ulong_wrap (4294960000 + 70000)) by reflexivity.
  split; [exact H1|]. split; [exact H2|]. split; [exact H3|].
  refine (proj2 (loopPoll_wraparound 62704 70000 newYearsEve
                   (set_lastCheck 4294960000 freshState) H1 H2 H3) _).
  unfold checkInterval. lia.
Defined.

(** X16. A skipped cycle does not postpone the next poll.  When the poll
    fires in seconds 57..59, [lastCheck] ends 30000 ms ahead of
    [millis()]; the unsigned difference [millis() - lastCheck] then wraps
    to a huge value, so a poll that comes less than 30 seconds later
    fires again at once, and only a poll between 30 and 90 seconds later
    is held back. *)
Theorem skip_does_not_wait ms d now now' st :
  0 <= ms < 2 ^ 32 -> 0 <= d <= checkInterval + 30000 ->
  checkInterval < Int.ulong_wrap (ms - lastCheck st) ->
  56 < tm_sec (correctedTime now st) ->
  let st1 := loopPoll ms now st in
  let ms' := Int.ulong_wrap (ms + d) in
  st1 = set_lastCheck (Int.ulong_wrap (ms + 30000)) st
  /\ (d < 30000 ->
        loopPoll ms' now' st1 = readAndDecodeTime now' (set_lastCheck ms' st1))
  /\ (30000 <= d -> loopPoll ms' now' st1 = st1).
Proof.
  intros Hms Hd Hfire Hskip st1 ms'.
  assert (E1 : st1 = set_lastCheck (Int.ulong_wrap (ms + 30000)) st).
  { subst st1. unfold loopPoll.
    destruct (Z.ltb_spec checkInterval (Int.ulong_wrap (ms - lastCheck st)));
      [|lia].
    rewrite readAndDecodeTime_skip by exact Hskip. reflexivity. }
  assert (Hdiff : Int.ulong_wrap (ms' - lastCheck st1)
                  = Int.ulong_wrap (d - 30000)).
  { rewrite E1. cbn [lastCheck set_lastCheck]. subst ms'.
    rewrite ulong_diff. f_equal. lia. }
  unfold checkInterval in *. change (2 ^ 32) with 4294967296 in *.
  split; [exact E1|]. split.
  - intros Hlt. unfold loopPoll. rewrite Hdiff.
    assert (Int.ulong_wrap (d - 30000) = d - 30000 + 4294967296) as ->.
    { unfold Int.ulong_wrap. change (2 ^ 32) with 4294967296.
      symmetry. apply Z.mod_unique with (q := -1); lia. }
    destruct (Z.ltb_spec checkInterval (d - 30000 + 4294967296));
      [reflexivity | unfold checkInterval in *; lia].
  - intros Hge. unfold loopPoll. rewrite Hdiff.
    rewrite ulong_wrap_small by (change (2 ^ 32) with 4294967296; lia).
    destruct (Z.ltb_spec checkInterval (d - 30000));
      [unfold checkInterval in *; lia | reflexivity].
Qed.

(** 23:59:58 on 31 December 2024: too late in the minute to compose. *)
Lemma skip_does_not_wait_witness :
  0 <= 100000 < 2 ^ 32 /\ 0 <= 10 <= checkInterval + 30000
  /\ checkInterval < Int.ulong_wrap (100000 - lastCheck freshState)
  /\ 56 < tm_sec (correctedTime (mkTm 58 59 23 31 11 124 2 365 0) freshState)
  /\ loopPoll (Int.ulong_wrap (100000 + 10)) newYearsEve
       (loopPoll 100000 (mkTm 58 59 23 31 11 124 2 365 0) freshState)
     = readAndDecodeTime newYearsEve
         (set_lastCheck (Int.ulong_wrap (100000 + 10))
            (loopPoll 100000 (mkTm 58 59 23 31 11 124 2 365 0) freshState)).
Proof.
  assert (H1 : 0 <= 100000 < 2 ^ 32) by (change (2 ^ 32) with 4294967296; lia).
  assert (H2 : 0 <= 10 <= checkInterval + 30000) by (unfold checkInterval; lia).
  assert (H3 : checkInterval < Int.ulong_wrap (100000 - lastCheck freshState))
    by reflexivity.
  assert (H4 : 56 < tm_sec (correctedTime (mkTm 58 59 23 31 11 124 2 365 0)
                              freshState)) by reflexivity.
  split; [exact H1|]. split; [exact H2|]. split; [exact H3|]. split; [exact H4|].
  refine (proj1 (proj2 (skip_does_not_wait 100000 10
            (mkTm 58 59 23 31 11 124 2 365 0) newYearsEve freshState
            H1 H2 H3 H4)) _).
  lia.
Defined.

(** X17. The poll keeps the program inside the reachable states, so the
    buffer and counter invariants hold after any sequence of polls and
    ticks: the buffer has its 183 valid pulse codes with header and
    trailer in place, and the emitter's counters are in range. *)
Theorem loopPoll_keeps_invariants ms now st :
  reachable st ->
  reachable (loopPoll ms now st)
  /\ telegramOk (pulseArray (loopPoll ms now st))
  /\ emitterOk (loopPoll ms now st).
Proof.
  intros Hreach.
  assert (Hr : reachable (loopPoll ms now st)).
  { unfold loopPoll.
    destruct (checkInterval <? Int.ulong_wrap (ms - lastCheck st));
      [|exact Hreach].
    apply reachable_readAndDecodeTime.
    eapply reach_step; [exact Hreach | apply step_lastCheck]. }
  split; [exact Hr|]. apply reachable_inv, Hr.
Qed.

Lemma loopPoll_keeps_invariants_witness :
  reachable freshState
  /\ telegramOk (pulseArray (loopPoll 70000 newYearsEve freshState)).
Proof.
  assert (Hr : reachable freshState) by exact (reach_setup 0).
  split; [exact Hr|].
  exact (proj1 (proj2 (loopPoll_keeps_invariants 70000 newYearsEve
                         freshState Hr))).
Defined.

Lemma delay_150000 st :
  delay 150000 st =
    Nat.iter 1500 dcfOut (set_clock_ms (clock_ms st + 150000) st).
Proof.
  unfold delay.
  pose proof (ticksDuring_tenths (clock_ms st) 1500) as E.
  change (1500 * 100) with 150000 in E. rewrite E. reflexivity.
Qed.

(** X18. A cycle composed while the previous transmission is still at
    slot 150 -- the state in which the previous call returned -- depends
    on the second [s] it reads.  For [s <= 25] the old transmission ends
    during the alignment wait and the new one is started and again left
    at slot 150.  For [s >= 26] the old transmission is still running
    when [dcfOutputOn] is set, so setting it starts nothing: the old
    transmission finishes on the rewritten buffer and the call returns
    with the emitter idle. *)
Theorem back_to_back_cycle now st :
  counters st = (150, 1, 0) ->
  let s := tm_sec (correctedTime now st) in
  (0 <= s <= 25 -> counters (readAndDecodeTime now st) = (150, 1, 0))
  /\ (26 <= s <= 56 -> counters (readAndDecodeTime now st) = (0, 0, 0)).
Proof.
  intros Hc s.
  assert (Hgen : 0 <= s <= 56 ->
    counters (readAndDecodeTime now st) =
      Nat.iter 1500 tickCounters
        (let c := Nat.iter (Z.to_nat ((58 - s) * 10) + 1500) tickCounters
                    (0, 1, 0) in
         (fst (fst c), 1, snd c))).
  { intros Hs.
    destruct (alignment_delay now st Hs) as (_ & _ & Hrun & _ & _).
    cbv zeta in Hrun. fold s in Hrun.
    set (w := delay ((58 - s) * 1000)
                (set_pulseArray
                   (composeFrames (correctedTime now st) (pulseArray st)) st))
      in Hrun.
    assert (Hw : counters w =
              Nat.iter (Z.to_nat ((58 - s) * 10) + 1500) tickCounters
                (0, 1, 0)).
    { unfold w, delay.
      replace ((58 - s) * 1000) with ((58 - s) * 10 * 100) by lia.
      rewrite ticksDuring_tenths, counters_ticks, Nat.iter_add.
      f_equal. rewrite tickCounters_running by lia.
      change (Z.of_nat 1500 / 10) with 150.
      change (Z.of_nat 1500 mod 10) with 0. exact Hc. }
    rewrite Hrun, delay_150000, counters_ticks. f_equal.
    rewrite <- Hw. reflexivity. }
  split; intros Hs; rewrite Hgen by lia; cbv zeta.
  - rewrite tickCounters_finished by lia. cbn [fst snd].
    rewrite tickCounters_running by lia. reflexivity.
  - rewrite tickCounters_running by lia. cbn [fst snd].
    rewrite <- tickCounters_running by lia.
    rewrite <- Nat.iter_add. apply tickCounters_finished. lia.
Qed.

Lemma back_to_back_cycle_witness :
  counters (set_pulseCount 150 (set_dcfOutputOn 1 freshState)) = (150, 1, 0)
  /\ 26 <= tm_sec (correctedTime (mkTm 28 2 0 1 0 125 3 0 0)
                     (set_pulseCount 150 (set_dcfOutputOn 1 freshState))) <= 56
  /\ counters (readAndDecodeTime (mkTm 28 2 0 1 0 125 3 0 0)
                 (set_pulseCount 150 (set_dcfOutputOn 1 freshState)))
     = (0, 0, 0).
Proof.
  assert (Hc : counters (set_pulseCount 150 (set_dcfOutputOn 1 freshState))
               = (150, 1, 0)) by reflexivity.
  assert (Hs : 26 <= tm_sec (correctedTime (mkTm 28 2 0 1 0 125 3 0 0)
                     (set_pulseCount 150 (set_dcfOutputOn 1 freshState))) <= 56)
    by (vm_compute; split; discriminate).
  split; [exact Hc|]. split; [exact Hs|].
  exact (proj2 (back_to_back_cycle (mkTm 28 2 0 1 0 125 3 0 0)
                  (set_pulseCount 150 (set_dcfOutputOn 1 freshState)) Hc) Hs).
Defined.
